(** * SublimeFileBrowser: the dired commands of [dired.py]

    A shallow embedding of the command bodies of [src/dired.py] and the
    properties of its directory listing, target resolution, create, move,
    mark-by-extension and rename-commit commands.

    Python [str] values are modelled as [string] (UTF-8 byte sequences),
    Python lists as [list], the [set] used by the rename loop as [gset],
    and the operating system as an abstract world with the calls the
    commands make on it.  Commands that raise keep the state they had
    mutated so far, as Python does. *)

From Stdlib Require Import Ascii String List Bool Arith Lia.
From stdpp Require Import base decidable option list strings pretty gmap fin_maps stringmap.

(* ===================================================================== *)
(** * Part I. Definitions                                                 *)
(* ===================================================================== *)

(** ** Strings and paths (the parts of [str] and [os.path] the code uses) *)

(** [os.sep] on the POSIX hosts the plugin's key bindings target. *)
Definition os_sep : string := "/".

(** Whitespace removed by [str.strip()]: the code points for which
    [str.isspace()] holds (Python 3.4 and later).  Those of one byte are
    TAB, LF, VT, FF, CR, the separators FS, GS, RS, US, and the space. *)
Definition is_space (c : ascii) : bool :=
  let n := nat_of_ascii c in
  (((9 <=? n) && (n <=? 13)) || ((28 <=? n) && (n <=? 32)))%nat.

(** Those of two bytes: U+0085 (C2 85) and U+00A0 (C2 A0). *)
Definition is_space2 (c1 c2 : ascii) : bool :=
  let a := nat_of_ascii c1 in
  let b := nat_of_ascii c2 in
  ((a =? 194) && ((b =? 133) || (b =? 160)))%nat.

(** Those of three bytes: U+1680 (E1 9A 80); U+2000 to U+200A, U+2028,
    U+2029 and U+202F (E2 80 80 to E2 80 8A, E2 80 A8, E2 80 A9,
    E2 80 AF); U+205F (E2 81 9F); U+3000 (E3 80 80). *)
Definition is_space3 (c1 c2 c3 : ascii) : bool :=
  let a := nat_of_ascii c1 in
  let b := nat_of_ascii c2 in
  let c := nat_of_ascii c3 in
  (((a =? 225) && (b =? 154) && (c =? 128))
   || ((a =? 226) && (b =? 128)
       && (((128 <=? c) && (c <=? 138)) || (c =? 168) || (c =? 169)
           || (c =? 175)))
   || ((a =? 226) && (b =? 129) && (c =? 159))
   || ((a =? 227) && (b =? 128) && (c =? 128)))%nat.

(** Leading whitespace is cut off code point by code point; [sp2] and
    [sp3] recognise the two-byte and three-byte ones in the order their
    bytes are met. *)
Fixpoint strip_left (sp2 : ascii → ascii → bool)
    (sp3 : ascii → ascii → ascii → bool) (s : string) : string :=
  match s with
  | EmptyString => EmptyString
  | String c1 r1 =>
      if is_space c1 then strip_left sp2 sp3 r1
      else
        match r1 with
        | EmptyString => s
        | String c2 r2 =>
            if sp2 c1 c2 then strip_left sp2 sp3 r2
            else
              match r2 with
              | EmptyString => s
              | String c3 r3 =>
                  if sp3 c1 c2 c3 then strip_left sp2 sp3 r3 else s
              end
        end
  end.

Definition lstrip (s : string) : string := strip_left is_space2 is_space3 s.

(** Trailing whitespace is leading whitespace of the reversed string,
    with the bytes of each code point met last to first. *)
Definition rstrip (s : string) : string :=
  String.rev
    (strip_left (λ c2 c1, is_space2 c1 c2) (λ c3 c2 c1, is_space3 c1 c2 c3)
       (String.rev s)).

(** [value.strip()] *)
Definition strip (s : string) : string := rstrip (lstrip s).

(** [s.startswith(p)] *)
Fixpoint startswith (s p : string) : bool :=
  match p, s with
  | EmptyString, _ => true
  | String c p', String d s' => if decide (c = d) then startswith s' p' else false
  | String _ _, EmptyString => false
  end.

(** [s.endswith(p)] *)
Definition endswith (s p : string) : bool :=
  startswith (String.rev s) (String.rev p).

(** [len(s)] counts code points: every byte that is not a UTF-8
    continuation byte (10xxxxxx). *)
Definition is_continuation (c : ascii) : bool :=
  let n := nat_of_ascii c in ((128 <=? n) && (n <? 192))%nat.

Fixpoint py_len (s : string) : nat :=
  match s with
  | EmptyString => 0
  | String c s' => (if is_continuation c then 0 else 1) + py_len s'
  end.

(** [n * s] *)
Fixpoint str_repeat (n : nat) (s : string) : string :=
  match n with
  | 0 => EmptyString
  | S n' => s +:+ str_repeat n' s
  end.

(** [isabs(p)] of [posixpath] *)
Definition isabs (p : string) : bool := startswith p os_sep.

(** [join(a, b)] of [posixpath]: an absolute [b] replaces [a]; otherwise
    [b] is appended, after a separator unless [a] is empty or ends in one. *)
Definition join (a b : string) : string :=
  if startswith b os_sep then b
  else if decide (a = "") then a +:+ b
  else if endswith a os_sep then a +:+ b
  else a +:+ os_sep +:+ b.

(** [s[0:-1]] *)
Definition drop_last (s : string) : string :=
  match String.rev s with
  | EmptyString => EmptyString
  | String _ r => String.rev r
  end.

(** The [goto] name handed to a refresh by the rename commands:
    a trailing separator is cut off. *)
Definition goto_name (s : string) : string :=
  if endswith s os_sep then drop_last s else s.

(** ** Directory listing ([DiredRefreshCommand.run], lines 98-126) *)

Definition dir_line (name : string) : string := "▸ " +:+ name +:+ os_sep.
Definition file_line (name : string) : string := "≡ " +:+ name.

(** The two loops over [names] that fill [f]; [isdir] is the host's
    [os.path.isdir] on the joined path. *)
Definition entry_lines (isdir : string → bool) (path : string)
    (names : list string) : list string :=
  (dir_line <$> filter (λ name, isdir (join path name) = true) names) ++
  (file_line <$> filter (λ name, isdir (join path name) ≠ true) names).

(** [text]: the path, a rule as long as the path, the parent link, then [f]. *)
Definition listing_text (isdir : string → bool) (path : string)
    (names : list string) : list string :=
  [ path; str_repeat (py_len path) "—"; "⠤" ] ++ entry_lines isdir path names.

(** The value stored under the [dired_count] setting. *)
Definition dired_count (isdir : string → bool) (path : string)
    (names : list string) : nat :=
  length (entry_lines isdir path names).

(** [s.rfind(sub)]: the highest index at which [sub] starts, if any. *)
Fixpoint rfind_from (s sub : string) (i : nat) (acc : option nat) : option nat :=
  let acc' := if startswith s sub then Some i else acc in
  match s with
  | EmptyString => acc'
  | String _ s' => rfind_from s' sub (S i) acc'
  end.

Definition rfind (s sub : string) : option nat := rfind_from s sub 0 None.

(** [s[:n]] for a non-negative [n] *)
Fixpoint str_take (n : nat) (s : string) : string :=
  match n, s with
  | S n', String c s' => String c (str_take n' s')
  | _, _ => EmptyString
  end.

(** The first [n] code points of [s]: a continuation byte stays with
    the code point it belongs to. *)
Fixpoint py_take (n : nat) (s : string) : string :=
  match s with
  | EmptyString => EmptyString
  | String c s' =>
      if is_continuation c then String c (py_take n s')
      else
        match n with
        | 0 => EmptyString
        | S n' => String c (py_take n' s')
        end
  end.

(** Python's [x or y] on lists: [x] when it is non-empty, else [y]. *)
Definition py_or {A : Type} (x y : list A) : list A :=
  match x with
  | [] => y
  | _ :: _ => x
  end.

(** ** The view and the host *)

(** Exceptions the modelled statements can raise. *)
Inductive exn : Type :=
  | OSError          (* a filesystem primitive of the host failed *)
  | FileNotFoundError
  | KeyError
  | IndexError.

Inductive outcome : Type :=
  | Returned
  | Raised (e : exn).

(** What a command reads from, and leaves in, its dired view.  [marked]
    and [selected] are what [get_marked()] and [get_selected()] return in
    the current view; [rename_lines] is the text of the lines covered by
    the 'rename' regions; the last four fields record the calls made to
    the editor. *)
Record View : Type := mkView {
  path : string;
  marked : list string;
  selected : list string;
  rename : option (list string);
  dired_rename_mode : bool;
  rename_lines : list string;
  errors : list string;
  commands : list (string * option string);
  prompts : list string;
  spawned : list (list string)
}.

Definition error_message (msg : string) (v : View) : View :=
  mkView (path v) (marked v) (selected v) (rename v) (dired_rename_mode v)
    (rename_lines v) (errors v ++ [msg]) (commands v) (prompts v) (spawned v).

Definition run_command (name : string) (goto : option string) (v : View) : View :=
  mkView (path v) (marked v) (selected v) (rename v) (dired_rename_mode v)
    (rename_lines v) (errors v) (commands v ++ [(name, goto)]) (prompts v)
    (spawned v).

Definition prompt_start (label : string) (v : View) : View :=
  mkView (path v) (marked v) (selected v) (rename v) (dired_rename_mode v)
    (rename_lines v) (errors v) (commands v) (prompts v ++ [label]) (spawned v).

Definition spawn (argv : list string) (v : View) : View :=
  mkView (path v) (marked v) (selected v) (rename v) (dired_rename_mode v)
    (rename_lines v) (errors v) (commands v) (prompts v) (spawned v ++ [argv]).

(** [erase_regions('rename')], [settings().erase('rename')] and
    [settings().set('dired_rename_mode', False)] *)
Definition leave_rename_mode (v : View) : View :=
  mkView (path v) (marked v) (selected v) None false
    [] (errors v) (commands v) (prompts v) (spawned v).

(** The operating system and editor services the commands call, over an
    abstract world [W].  A primitive that raises returns [None]. *)
Record Host (W : Type) : Type := mkHost {
  os_exists : W → string → bool;
  os_isdir : W → string → bool;
  os_makedirs : string → W → option W;
  os_open_wb : string → W → option W;
  os_remove : string → W → option W;
  shutil_rmtree : string → W → option W;
  shutil_move : string → string → W → option W;
  normpath : string → string;
  normcase : string → string;
  ok_cancel_dialog : string → bool;
  executable_path : string;
  platform : string
}.

Arguments os_exists {W} _ _ _.
Arguments os_isdir {W} _ _ _.
Arguments os_makedirs {W} _ _ _.
Arguments os_open_wb {W} _ _ _.
Arguments os_remove {W} _ _ _.
Arguments shutil_rmtree {W} _ _ _.
Arguments shutil_move {W} _ _ _ _.
Arguments normpath {W} _ _.
Arguments normcase {W} _ _.
Arguments ok_cancel_dialog {W} _ _.
Arguments executable_path {W} _.
Arguments platform {W} _.

(** The state a command leaves behind, with how it ended. *)
Record result (W : Type) : Type := mkResult {
  res_out : outcome;
  res_view : View;
  res_world : W
}.

Arguments mkResult {W} _ _ _.
Arguments res_out {W} _.
Arguments res_view {W} _.
Arguments res_world {W} _.

(** ** Target resolution and the commands that use it *)

(** [self.get_marked() or self.get_selected()] *)
Definition targets (v : View) : list string := py_or (marked v) (selected v).

Section Commands.
Context {W : Type} (H : Host W).

(** The loop of [DiredDeleteCommand.run] (lines 302-307). *)
Fixpoint delete_each (dir : string) (files : list string) (w : W)
    : outcome * W :=
  match files with
  | [] => (Returned, w)
  | filename :: rest =>
      let fqn := join dir filename in
      let step := if os_isdir H w fqn then shutil_rmtree H fqn w
                  else os_remove H fqn w in
      match step with
      | Some w' => delete_each dir rest w'
      | None => (Raised OSError, w)
      end
  end.

(** [DiredDeleteCommand.run] *)
Definition delete_run (v : View) (w : W) : result W :=
  let files := py_or (marked v) (selected v) in
  match files with
  | [] => mkResult Returned v w
  | first :: others =>
      let msg := match others with
                 | [] => "Delete " +:+ first +:+ "?"
                 | _ => "Delete " +:+ pretty (length files) +:+ " items?"
                 end in
      if ok_cancel_dialog H msg then
        match delete_each (path v) files w with
        | (Returned, w') =>
            mkResult Returned (run_command "dired_refresh" None v) w'
        | (Raised e, w') => mkResult (Raised e) v w'
        end
      else mkResult Returned v w
  end.

(** [DiredMoveCommand.run] without a [to] argument: the prompt is shown
    when there is at least one target. *)
Definition move_run (v : View) : View :=
  let files := py_or (marked v) (selected v) in
  match files with
  | [] => v
  | _ :: _ => prompt_start "Move to:" v
  end.

(** The loop of [DiredMoveCommand._move] (lines 337-340); [dest] is the
    normalised destination. *)
Fixpoint move_each (dir dest : string) (files : list string) (w : W)
    : outcome * W :=
  match files with
  | [] => (Returned, w)
  | filename :: rest =>
      let fqn := normpath H (normcase H (join dir filename)) in
      if decide (fqn ≠ dest) then
        match shutil_move H fqn dest w with
        | Some w' => move_each dir dest rest w'
        | None => (Raised OSError, w)
        end
      else move_each dir dest rest w
  end.

(** [DiredMoveCommand._move] *)
Definition move_to (dst : string) (v : View) (w : W) : result W :=
  if decide (dst = path v) then mkResult Returned v w
  else
    let dst1 := if negb (isabs dst) then join (path v) dst else dst in
    if negb (os_isdir H w dst1) then
      mkResult Returned
        (error_message ("Not a valid directory: " +:+ dst1) v) w
    else
      let files := py_or (marked v) (selected v) in
      let dst2 := normpath H (normcase H dst1) in
      match move_each (path v) dst2 files w with
      | (Returned, w') =>
          mkResult Returned (run_command "dired_refresh" None v) w'
      | (Raised e, w') => mkResult (Raised e) v w'
      end.

(** [DiredQuickLookCommand.run] *)
Definition quick_look_run (v : View) : View :=
  let files := py_or (marked v) (selected v) in
  spawn (["qlmanage"; "-p"] ++ (join (path v) <$> files)) v.

(** [DiredOpenInNewWindowCommand.run].  In
    [executable_path[:executable_path.rfind(".app/")+5]] a match found
    ends the slice with the match, so the slice is the bytes up to
    there; without a match [rfind] gives -1 and the slice is the first
    four code points. *)
Definition open_in_new_window_run (v : View) : View :=
  let exe :=
    if decide (platform H = "osx") then
      let app_path := match rfind (executable_path H) ".app/" with
                      | Some i => str_take (i + 5) (executable_path H)
                      | None => py_take 4 (executable_path H)
                      end in
      app_path +:+ "Contents/SharedSupport/bin/subl"
    else executable_path H in
  let files := py_or (marked v) (selected v) in
  spawn ([exe; "-n"] ++ (join (path v) <$> files)) v.

(** ** Create ([DiredCreateCommand._on_done]) *)

Inductive kind : Type := KFile | KDirectory.

Definition create_on_done (which : kind) (value : string) (v : View) (w : W)
    : result W :=
  let value := strip value in
  if decide (value = "") then mkResult Returned v w
  else
    let fqn := join (path v) value in
    if os_exists H w fqn then
      mkResult Returned (error_message (fqn +:+ " already exists") v) w
    else
      let made := match which with
                  | KDirectory => os_makedirs H fqn w
                  | KFile => os_open_wb H fqn w
                  end in
      match made with
      | Some w' =>
          mkResult Returned (run_command "dired_refresh" (Some value) v) w'
      | None => mkResult (Raised OSError) v w
      end.
End Commands.

(** ** Mark by extension ([DiredMarkExtensionCommand.run]) *)

(** [_markfunc] (lines 239-240): [filename.endswith(ext) and True or oldmark] *)
Definition _markfunc (ext : string) (oldmark : bool) (filename : string) : bool :=
  (endswith filename ext && true) || oldmark.

(** Modelled from the spec: [DiredBaseCommand._mark] lives in [common.py],
    which is not among the sources.  Following section 4.3, for each
    targeted entry name in turn the predicate is applied to the old marked
    state and the name, and the name is marked or unmarked accordingly. *)
Definition _mark (mark : bool → string → bool) (names : list string)
    (marks : gset string) : gset string :=
  foldl (λ acc name,
           if mark (bool_decide (name ∈ acc)) name
           then acc ∪ {[ name ]} else acc ∖ {[ name ]})
        marks names.

(** [DiredMarkExtensionCommand.run]: [entries] are the names on the lines
    of the file region.  Without entries nothing happens; without an
    extension the input panel is shown; otherwise the marks are updated. *)
Definition mark_extension_run (ext : option string) (entries : list string)
    (v : View) (marks : gset string) : View * gset string :=
  match entries with
  | [] => (v, marks)
  | _ :: _ =>
      match ext with
      | None => (prompt_start "Extension:" v, marks)
      | Some e => (v, _mark (_markfunc e) entries marks)
      end
  end.

(** ** Rename commit ([DiredRenameCommitCommand.run]) *)

(** The operating-system calls of the rename loop, over an abstract
    world [W]: [tempfile.NamedTemporaryFile(delete=False, dir=d).name],
    which creates a file in [d] and gives its path, [os.unlink] and
    [os.rename].  A call that raises returns its exception and leaves
    the world as it was. *)
Record RenameHost (W : Type) : Type := mkRenameHost {
  named_temporary_file : string → W → exn + (string * W);
  os_unlink : string → W → exn + W;
  os_rename : string → string → W → exn + W
}.

Arguments mkRenameHost {W} _ _ _.
Arguments named_temporary_file {W} _ _ _.
Arguments os_unlink {W} _ _ _.
Arguments os_rename {W} _ _ _ _.

(** The variables of the [while diffs:] loop, the world, the number of
    temporary names drawn so far and the [os.rename] calls that
    returned, as (source name, target name). *)
Record loop_state (W : Type) : Type := mkLoop {
  diffs : list (string * string);
  existing : gset string;
  world : W;
  tmp_next : nat;
  renames : list (string * string)
}.

Arguments mkLoop {W} _ _ _ _ _.
Arguments diffs {W} _.
Arguments existing {W} _.
Arguments world {W} _.
Arguments tmp_next {W} _.
Arguments renames {W} _.

Inductive step_result (W : Type) : Type :=
  | Done
  | Next (s : loop_state W)
  | Raise (e : exn) (s : loop_state W).

Arguments Done {W}.
Arguments Next {W} _.
Arguments Raise {W} _ _.

(** The machine a commit runs on. *)
Record machine (W : Type) : Type := mkMachine {
  m_world : W;
  m_tmp : nat;
  m_renames : list (string * string)
}.

Arguments mkMachine {W} _ _ _.
Arguments m_world {W} _.
Arguments m_tmp {W} _.
Arguments m_renames {W} _.

(** [after] (lines 385-389); [remove_ui] is [DiredBaseCommand._remove_ui]
    of [common.py], which strips the decoration of a line. *)
Definition edited_names (remove_ui : string → string) (v : View)
    : list string :=
  (λ line, remove_ui (strip line)) <$> rename_lines v.

(** [diffs] (line 399) *)
Definition compute_diffs (before after : list string)
    : list (string * string) :=
  filter (λ ba, ba.1 ≠ ba.2) (zip before after).

Section RenameCommit.
Context {W : Type} (H : RenameHost W).

(** Lines 414-416: [os.rename], then [existing.remove(b)], which raises
    [KeyError] when [b] is not in the set, and [existing.add(a)].
    [queue] is what is left of [diffs], [n] the number of temporary
    names drawn. *)
Definition rename_entry (dir : string) (s : loop_state W)
    (queue : list (string * string)) (b a : string) (w : W) (n : nat)
    : step_result W :=
  match os_rename H (join dir b) (join dir a) w with
  | inl e => Raise e (mkLoop queue (existing s) w n (renames s))
  | inr w' =>
      let log := renames s ++ [(b, a)] in
      if decide (b ∈ existing s)
      then Next (mkLoop queue (existing s ∖ {[ b ]} ∪ {[ a ]}) w' n log)
      else Raise KeyError (mkLoop queue (existing s) w' n log)
  end.

(** One iteration of the loop body (lines 403-416). *)
Definition loop_step (dir : string) (s : loop_state W) : step_result W :=
  match diffs s with
  | [] => Done
  | (b, a) :: rest =>
      if decide (a ∈ existing s) then
        match named_temporary_file H dir (world s) with
        | inl e =>
            Raise e (mkLoop rest (existing s) (world s) (tmp_next s)
                       (renames s))
        | inr (tmp, w1) =>
            match os_unlink H tmp w1 with
            | inl e =>
                Raise e (mkLoop rest (existing s) w1 (S (tmp_next s))
                           (renames s))
            | inr w2 =>
                rename_entry dir s (rest ++ [(tmp, a)]) b tmp w2
                  (S (tmp_next s))
            end
        end
      else rename_entry dir s rest b a (world s) (tmp_next s)
  end.

(** [while diffs: ...], with [None] when the fuel runs out first. *)
Fixpoint rename_loop (dir : string) (fuel : nat) (s : loop_state W)
    : option (outcome * loop_state W) :=
  match fuel with
  | 0 => None
  | S fuel' =>
      match loop_step dir s with
      | Done => Some (Returned, s)
      | Next s' => rename_loop dir fuel' s'
      | Raise e s' => Some (Raised e, s')
      end
  end.

(** Lines 418-424: leave rename mode and refresh on the first selected
    name. *)
Definition finish_commit (v : View) (m : machine W) : result (machine W) :=
  let v1 := leave_rename_mode v in
  match selected v1 with
  | [] => mkResult (Raised IndexError) v1 m
  | first :: _ =>
      mkResult Returned
        (run_command "dired_refresh" (Some (goto_name first)) v1) m
  end.

(** [DiredRenameCommitCommand.run] *)
Definition rename_commit (remove_ui : string → string) (fuel : nat)
    (v : View) (m : machine W) : option (result (machine W)) :=
  match rename v with
  | None => Some (mkResult Returned (run_command "dired_refresh" None v) m)
  | Some before =>
      let after := edited_names remove_ui v in
      if decide (length after ≠ length before) then
        Some (mkResult Returned
                (error_message "You cannot add or remove lines" v) m)
      else if decide (size (list_to_set after : gset string) ≠ length after) then
        Some (mkResult Returned
                (error_message "There are duplicate filenames" v) m)
      else
        match compute_diffs before after with
        | [] => Some (finish_commit v m)
        | d :: ds =>
            match rename_loop (path v) fuel
                    (mkLoop (d :: ds) (list_to_set before) (m_world m)
                       (m_tmp m) (m_renames m)) with
            | None => None
            | Some (Returned, s) =>
                Some (finish_commit v
                        (mkMachine (world s) (tmp_next s) (renames s)))
            | Some (Raised e, s) =>
                Some (mkResult (Raised e) v
                        (mkMachine (world s) (tmp_next s) (renames s)))
            end
        end
  end.
End RenameCommit.

(** ** What the rename commit asks of its host

    [content w p] is the file that the path [p] leads to in the world
    [w], if any.  The properties below are the ones of a directory
    whose entries are renamed under plain names. *)

(** The names [NamedTemporaryFile] can give in [dir]. *)
Definition drawn {W : Type} (H : RenameHost W) (dir t : string) : Prop :=
  ∃ w w1, named_temporary_file H dir w = inr (t, w1).

(** The names a commit can meet: those of [N] and the temporary ones. *)
Definition commit_name {W : Type} (H : RenameHost W) (dir : string)
    (N : list string) (x : string) : Prop :=
  x ∈ N ∨ drawn H dir x.

(** On the names [K], distinct names are distinct paths, and
    [os.rename] from a path that holds a file to a path that holds none
    moves the file and leaves the other paths alone. *)
Record moves_entries {W V : Type} (H : RenameHost W)
    (content : W → string → option V) (dir : string) (K : string → Prop)
    : Prop := mkMoves {
  entries_apart : ∀ x y, K x → K y → join dir x = join dir y → x = y;
  rename_moves : ∀ w x y f, K x → K y →
    content w (join dir x) = Some f →
    content w (join dir y) = None →
    ∃ w', os_rename H (join dir x) (join dir y) w = inr w'
      ∧ content w' (join dir y) = Some f
      ∧ content w' (join dir x) = None
      ∧ ∀ z, K z → join dir z ≠ join dir x → join dir z ≠ join dir y →
          content w' (join dir z) = content w (join dir z)
}.

(** A temporary name is none of the names [N]; it is the name of a new
    file, and once that file is unlinked the paths of the commit lead
    where they led before. *)
Record draws_fresh {W V : Type} (H : RenameHost W)
    (content : W → string → option V) (dir : string) (N : list string)
    : Prop := mkDraws {
  drawn_apart : ∀ t, drawn H dir t → t ∉ N;
  draw_unlinked : ∀ w, ∃ t w1 w2,
    named_temporary_file H dir w = inr (t, w1)
    ∧ os_unlink H t w1 = inr w2
    ∧ content w (join dir t) = None
    ∧ ∀ x, commit_name H dir N x →
        content w2 (join dir x) = content w (join dir x)
}.

(** ** A small in-memory host, to run the commands on examples

    The world maps a full path to [true] for a directory and [false] for
    a file. *)

Fixpoint str_drop (n : nat) (s : string) : string :=
  match n, s with
  | S n', String _ s' => str_drop n' s'
  | _, _ => s
  end.

Definition basename (p : string) : string :=
  match rfind p os_sep with
  | Some i => str_drop (S i) p
  | None => p
  end.

Fixpoint parents_from (pre s : string) : list string :=
  match s with
  | EmptyString => []
  | String c s' =>
      (if decide (c = "/"%char ∧ pre ≠ "") then [pre] else []) ++
      parents_from (pre +:+ String c EmptyString) s'
  end.

Definition mem_host : Host (gmap string bool) :=
  mkHost (gmap string bool)
    (λ w p, bool_decide (is_Some (w !! p)))
    (λ w p, bool_decide (w !! p = Some true))
    (λ p w, if decide (is_Some (w !! p)) then None
            else Some (<[ p := true ]>
                         (foldr (λ d acc, <[ d := true ]> acc) w
                            (parents_from "" p))))
    (λ p w, if decide (w !! p = Some true) then None
            else Some (<[ p := false ]> w))
    (λ p w, if decide (w !! p = Some false) then Some (delete p w) else None)
    (λ p w, if decide (w !! p = Some true) then Some (delete p w) else None)
    (λ src dst w, match w !! src with
                  | Some k => Some (<[ join dst (basename src) := k ]>
                                      (delete src w))
                  | None => None
                  end)
    (λ p, p) (λ p, p) (λ _, true)
    "/opt/sublime_text/sublime_text" "linux".

(** The destination [_move] tests and moves into: a relative path is
    resolved against the directory of the view. *)
Definition resolved (dst : string) (v : View) : string :=
  if isabs dst then dst else join (path v) dst.

(** Refinement target for the move loop: hand every listed source to the
    move primitive, in order, stopping when the primitive raises. *)
Fixpoint move_all {W : Type} (H : Host W) (dest : string)
    (sources : list string) (w : W) : outcome * W :=
  match sources with
  | [] => (Returned, w)
  | src :: rest =>
      match shutil_move H src dest w with
      | Some w' => move_all H dest rest w'
      | None => (Raised OSError, w)
      end
  end.

(** The normalised full path of a source (line 338). *)
Definition normalise {W : Type} (H : Host W) (dir filename : string) : string :=
  normpath H (normcase H (join dir filename)).

Definition sample_view : View :=
  mkView "/d" [] ["a.txt"] None false [] [] [] [] [].

Definition sample_world : gmap string bool :=
  {[ "/d" := true; "/d/a.txt" := false; "/d/sub" := true; "/d/b.py" := false ]}.

(** ** What create asks of its host

    [file_size w p] is the size of the regular file at [p] in the world
    [w], if there is one.  [open(p, 'wb')] leaves an empty regular file
    at [p]; [os.makedirs(p)] leaves a directory at [p] and at every
    ancestor of [p]. *)
Record creates_entries {W : Type} (H : Host W)
    (file_size : W → string → option nat) : Prop := mkCreates {
  open_wb_creates : ∀ p w w', os_open_wb H p w = Some w' →
    file_size w' p = Some 0
    ∧ os_exists H w' p = true
    ∧ os_isdir H w' p = false;
  makedirs_creates : ∀ p w w', os_makedirs H p w = Some w' →
    os_isdir H w' p = true
    ∧ Forall (λ q, os_isdir H w' q = true) (parents_from "" p)
}.

(** In the in-memory host every file is empty. *)
Definition mem_file_size (w : gmap string bool) (p : string) : option nat :=
  if decide (w !! p = Some false) then Some 0 else None.

(** U+00A0 and U+3000 in UTF-8, and a name made of a space, U+00A0, a
    TAB and U+3000. *)
Definition nbsp : string := String "194" (String "160" "").

Definition ideographic_space : string :=
  String "227" (String "128" (String "128" "")).

Definition blank_name : string :=
  " " +:+ nbsp +:+ "	" +:+ ideographic_space.

(** ** Sample inputs of the rename commit *)

(** A small in-memory directory: the world maps a full path to the
    identity of the file there.  A temporary name is the first of
    "tmp", "tmp0", "tmp1", ... in the directory that is not taken. *)
Definition mem_rename_host : RenameHost (gmap string nat) :=
  mkRenameHost
    (λ dir w, let t := fresh_string (join dir "tmp") w in
              inr (t, <[ t := 0 ]> w))
    (λ p w, if decide (is_Some (w !! p)) then inr (delete p w)
            else inl FileNotFoundError)
    (λ src dst w, match w !! src with
                  | Some f => inr (<[ dst := f ]> (delete src w))
                  | None => inl FileNotFoundError
                  end).

Definition mem_content (w : gmap string nat) (p : string) : option nat :=
  w !! p.

(** The names the examples rename: relative, and not of the form of a
    temporary name. *)
Definition mem_plain (x : string) : bool :=
  negb (startswith x "/") && negb (startswith x "tmp").

(** A decoration stripper in the role of [_remove_ui]: the three-byte
    marker and the space after it are cut off. *)
Definition sample_remove_ui (line : string) : string :=
  if startswith line "▸ " then str_drop 4 line
  else if startswith line "≡ " then str_drop 4 line
  else line.

Definition sample_machine : machine (gmap string nat) :=
  mkMachine {[ "/d/a" := 1; "/d/b" := 2 ]} 0 [].

(** A view in rename mode on "/d", whose baseline is [before] and whose
    edited lines are [lines]. *)
Definition rename_view (before lines : list string) : View :=
  mkView "/d" [] ["a"] (Some before) true lines [] [] [] [].



(** ** Invariant of the rename loop

    The queue of the loop is read as the untouched pairs [R] of the
    original change list [D], followed by the deferred pairs [Q]: a
    deferred entry [(t, b, a)] stands for an original pair [(b, a)] whose
    file now sits under the temporary name [t].  [Dn] are the pairs that
    have reached their final name, [F] the names the edit leaves alone,
    [w0] the world before the commit, [n0] and [r0] the number of
    temporary names and of renames before the commit. *)

Definition q_tmp (q : string * string * string) : string := q.1.1.
Definition q_src (q : string * string * string) : string := q.1.2.
Definition q_dst (q : string * string * string) : string := q.2.
Definition hop_pair (q : string * string * string) : string * string :=
  (q_tmp q, q_dst q).
Definition orig_pair (q : string * string * string) : string * string :=
  (q_src q, q_dst q).

Record loop_inv {W V : Type} (H : RenameHost W)
    (content : W → string → option V) (dir : string)
    (D : list (string * string)) (F : list string) (w0 : W)
    (n0 r0 : nat) (s : loop_state W)
    (Dn R : list (string * string)) (Q : list (string * string * string))
    : Prop := mkInv {
  inv_perm : D ≡ₚ Dn ++ (orig_pair <$> Q) ++ R;
  inv_queue : diffs s = R ++ (hop_pair <$> Q);
  inv_budget : tmp_next s + length R ≤ n0 + length D;
  inv_n0 : n0 ≤ tmp_next s;
  inv_tmps : ∀ q, q ∈ Q → drawn H dir (q_tmp q);
  inv_tmps_nodup : NoDup (q_tmp <$> Q);
  inv_existing : ∀ x, x ∈ existing s →
    x ∈ F ∨ x ∈ R.*1 ∨ x ∈ Dn.*2 ∨ x ∈ (q_tmp <$> Q);
  inv_raw : ∀ b a, (b, a) ∈ R →
    b ∈ existing s
    ∧ content (world s) (join dir b) = content w0 (join dir b);
  inv_hop : ∀ q, q ∈ Q →
    q_tmp q ∈ existing s
    ∧ content (world s) (join dir (q_tmp q)) = content w0 (join dir (q_src q));
  inv_done : ∀ b a, (b, a) ∈ Dn →
    content (world s) (join dir a) = content w0 (join dir b);
  inv_fixed : ∀ f, f ∈ F →
    content (world s) (join dir f) = content w0 (join dir f);
  inv_done_clear : ∀ b a, (b, a) ∈ Dn → a ∉ R.*1;
  inv_free : ∀ x, x ∈ D.*1 ∨ x ∈ D.*2 → x ∉ existing s →
    content (world s) (join dir x) = None;
  inv_log : length (renames s) = r0 + length Dn + (tmp_next s - n0)
}.

(** The names of a commit: changed sources, changed targets, unchanged
    names, and the temporary names the host can give. *)
Definition known {W : Type} (H : RenameHost W) (dir : string)
    (D : list (string * string)) (F : list string) (x : string) : Prop :=
  x ∈ D.*1 ∨ x ∈ D.*2 ∨ x ∈ F ∨ drawn H dir x.

(** The names that stand unchanged on their line. *)
Definition fixed_names (before after : list string) : list string :=
  (filter (λ ba, ba.1 = ba.2) (zip before after)).*1.

(** Three files and a view whose edit rotates their names. *)
Definition rotate_machine : machine (gmap string nat) :=
  mkMachine {[ "/d/a" := 1; "/d/b" := 2; "/d/c" := 3 ]} 0 [].

Definition rotate_view : View :=
  rename_view ["a"; "b"; "c"] ["≡ b"; "≡ c"; "≡ a"].

Definition swap_view : View := rename_view ["a"; "b"] ["≡ b"; "≡ a"].
(** ** Cursor placement after a refresh ([DiredRefreshCommand.run], lines 143-163) *)

(** Where the cursor is put: at the start of the file region
    ([fileregion(with_parent_link=True).a], a helper of [common.py]) or at
    [view.text_point(row, col)]. *)
Inductive cursor : Type :=
  | FileRegionStart
  | TextPoint (row col : nat).

(** [f.index(x)]: the first position of [x], [None] for [ValueError]. *)
Fixpoint list_index (x : string) (l : list string) : option nat :=
  match l with
  | [] => None
  | y :: l' => if decide (y = x) then Some 0 else S <$> list_index x l'
  end.

Definition refresh_cursor (isdir : string → bool) (path : string)
    (names : list string) (goto : option string) : cursor :=
  let f := entry_lines isdir path names in
  match f with
  | [] => TextPoint 2 0
  | _ :: _ =>
      match goto with
      | None => FileRegionStart
      | Some g =>
          if decide (g = "") then FileRegionStart
          else
            let line := if isdir (join path g) && negb (endswith g os_sep)
                        then "▸ " +:+ g +:+ os_sep
                        else "≡ " +:+ g in
            match list_index line f with
            | Some i => TextPoint (i + 3) 2
            | None => FileRegionStart
            end
      end
  end.

(** ** The question asked before deleting (lines 297-300) *)

Definition delete_prompt (files : list string) : string :=
  match files with
  | [first] => "Delete " +:+ first +:+ "?"
  | _ => "Delete " +:+ pretty (length files) +:+ " items?"
  end.

(** One step of the delete loop: a directory is removed with its
    contents, anything else as a single file. *)
Definition delete_one {W : Type} (H : Host W) (fqn : string) (w : W) : option W :=
  if os_isdir H w fqn then shutil_rmtree H fqn w else os_remove H fqn w.

(** Views for the batch examples: three marked names, the second of
    which is not in [sample_world]; and the directory "sub" marked. *)
Definition batch_view : View :=
  mkView "/d" ["a.txt"; "missing"; "b.py"] [] None false [] [] [] [] [].

Definition self_view : View :=
  mkView "/d" ["sub"] [] None false [] [] [] [] [].

(** ** Going up ([DiredUpCommand.run]) and the [os.path] functions it uses *)

Fixpoint lstrip_sep (s : string) : string :=
  match s with
  | String c s' => if decide (c = "/"%char) then lstrip_sep s' else s
  | EmptyString => EmptyString
  end.

(** [s.rstrip(os.sep)]: every trailing separator is removed. *)
Definition rstrip_sep (s : string) : string :=
  String.rev (lstrip_sep (String.rev s)).

(** [dirname(p)] of [posixpath]: everything up to the last separator,
    without its trailing separators unless it consists of separators. *)
Definition dirname (p : string) : string :=
  let i := match rfind p os_sep with Some k => S k | None => 0 end in
  let head := str_take i p in
  if decide (head ≠ "" ∧ head ≠ str_repeat (py_len head) os_sep)
  then rstrip_sep head else head.

(** A call of [show] (of [show.py]) or of the window: the optional
    arguments are [None] when the call does not pass them. *)
Inductive ui_call : Type :=
  | Show (fqn : string) (view_id : option nat) (ignore_existing : option bool)
      (goto : option string)
  | OpenFile (fqn : string)
  | WindowCommand (name : string).

(** [DiredUpCommand.run]; [reuse] is [reuse_view()] and [view_id] is
    [self.view.id()].  [None] when the command returns without a call. *)
Definition up_run (reuse : bool) (view_id : nat) (v : View) : option ui_call :=
  let parent := dirname (rstrip_sep (path v)) in
  let parent := if decide (parent ≠ os_sep) then parent +:+ os_sep else parent in
  if decide (parent = path v) then None
  else Some (Show parent (if reuse then Some view_id else None) None
               (Some (basename (rstrip_sep (path v))))).

(** Whether a string contains the separator, and whether it contains
    nothing else. *)
Fixpoint has_sep (s : string) : bool :=
  match s with
  | EmptyString => false
  | String c s' => bool_decide (c = "/"%char) || has_sep s'
  end.

Fixpoint all_sep (s : string) : bool :=
  match s with
  | EmptyString => true
  | String c s' => bool_decide (c = "/"%char) && all_sep s'
  end.

(** A directory path in the form the views use: "/" alone, or a path
    that does not end in a separator, followed by one. *)
Definition dir_prefix (q : string) : Prop :=
  q = "" ∨ ∃ c r, String.rev q = String c r ∧ c ≠ "/"%char.

(** ** Opening the selection ([DiredSelect.run]) *)

(** The loop of [DiredSelect.run] (lines 186-191): a directory is shown,
    anything else is opened as a file. *)
Definition select_each {W : Type} (H : Host W) (new_view : bool) (dir : string)
    (w : W) (filename : string) : ui_call :=
  let fqn := join dir filename in
  if os_isdir H w fqn then Show fqn None (Some new_view) None
  else OpenFile fqn.

(** [DiredSelect.run]; [reuse] is [reuse_view()] and [view_id] is
    [self.view.id()]. *)
Definition select_run {W : Type} (H : Host W) (new_view reuse : bool)
    (view_id : nat) (v : View) (w : W) : list ui_call :=
  let filenames := selected v in
  if negb new_view && reuse then
    match filenames with
    | [only] =>
        if os_isdir H w (join (path v) only)
        then [Show (join (path v) only) (Some view_id) None None]
        else if decide (only = "⠤") then [WindowCommand "dired_up"]
        else select_each H new_view (path v) w <$> filenames
    | _ => select_each H new_view (path v) w <$> filenames
    end
  else select_each H new_view (path v) w <$> filenames.

(** ** Leaving rename mode without renaming ([DiredRenameCancelCommand.run]) *)

Definition rename_cancel_run (v : View) : outcome * View :=
  let v1 := mkView (path v) (marked v) (selected v) None false
              (rename_lines v) (errors v) (commands v) (prompts v)
              (spawned v) in
  match selected v1 with
  | [] => (Raised IndexError, v1)
  | first :: _ =>
      (Returned, run_command "dired_refresh" (Some (goto_name first)) v1)
  end.

(** [erase_regions('rename')] *)
Definition erase_rename_regions (v : View) : View :=
  mkView (path v) (marked v) (selected v) (rename v) (dired_rename_mode v)
    [] (errors v) (commands v) (prompts v) (spawned v).

(** ** A host on a Mac, for the new-window command *)

Definition mac_host : Host (gmap string bool) :=
  mkHost (gmap string bool)
    (os_exists mem_host) (os_isdir mem_host) (os_makedirs mem_host)
    (os_open_wb mem_host) (os_remove mem_host) (shutil_rmtree mem_host)
    (shutil_move mem_host) (normpath mem_host) (normcase mem_host)
    (ok_cancel_dialog mem_host)
    "/Applications/Sublime Text.app/Contents/MacOS/Sublime Text" "osx".

(** ** The extension typed for mark-by-extension
       ([DiredMarkExtensionCommand.on_done], lines 243-249) *)

(** The command re-run with the extension is recorded with its
    argument. *)
Definition mark_extension_on_done (ext : string) (v : View) : View :=
  let ext := strip ext in
  if decide (ext = "") then v
  else
    let ext := if negb (startswith ext ".") then "." +:+ ext else ext in
    run_command "dired_mark_extension" (Some ext) v.

(** A world in which the first changed baseline name has no file. *)
Definition orphan_machine : machine (gmap string nat) :=
  mkMachine {[ "/d/b" := 2 ]} 0 [].



(* ===================================================================== *)
(** * Part II. Theorems                                                   *)
(* ===================================================================== *)

Example strip_ex : strip "  a b	 " = "a b".
Proof. reflexivity. Qed.

Example strip_unicode_ex :
  strip blank_name = "" ∧ strip (nbsp +:+ "py" +:+ ideographic_space) = "py".
Proof. split; reflexivity. Qed.

Example join_ex : join "/home/u" "x.txt" = "/home/u/x.txt" ∧ join "/home/u/" "x" = "/home/u/x"
  ∧ join "/home" "/etc" = "/etc" ∧ join "" "x" = "x".
Proof. repeat split; reflexivity. Qed.

Example listing_ex :
  listing_text (λ p, bool_decide (p = "/d/sub")) "/d" ["a.txt"; "sub"; "b"]
  = ["/d"; "——"; "⠤"; "▸ sub/"; "≡ a.txt"; "≡ b"].
Proof. reflexivity. Qed.

Example py_len_ex : py_len "/dé" = 3.
Proof. reflexivity. Qed.

(** ** Strings *)

Lemma app_cons (c : ascii) (s t : string) :
  String c s +:+ t = String c (s +:+ t).
Proof. reflexivity. Qed.

Lemma app_empty_l (t : string) : "" +:+ t = t.
Proof. reflexivity. Qed.

Lemma app_empty_r (s : string) : s +:+ "" = s.
Proof. induction s as [|c s IH]; [done|]. by rewrite app_cons, IH. Qed.

Lemma app_assoc_str (s t u : string) : (s +:+ t) +:+ u = s +:+ (t +:+ u).
Proof. induction s as [|c s IH]; [done|]. by rewrite !app_cons, IH. Qed.

Lemma startswith_app (p t : string) : startswith (p +:+ t) p = true.
Proof.
  induction p as [|c p IH]; [by destruct t|]. rewrite app_cons. simpl.
  by destruct (decide (c = c)).
Qed.

(** ** Directory listing *)

Lemma entry_lines_length isdir dir names :
  length (entry_lines isdir dir names) = length names.
Proof.
  unfold entry_lines. rewrite length_app, !length_fmap, <- length_app.
  apply Permutation_length, filter_app_complement.
Qed.

(** C3. A refresh renders the child directories (each as "▸ name/") before
    the child files (each as "≡ name"), both groups in the order of the
    enumeration, after the three header lines; no child is dropped or
    repeated, and the number of entry lines, which is the stored
    [dired_count], is the number of children. *)
Theorem listing_dirs_before_files (isdir : string → bool) (dir : string)
    (names : list string) :
  ∃ dirs files : list string,
    listing_text isdir dir names
      = [dir; str_repeat (py_len dir) "—"; "⠤"]
        ++ ((λ d, "▸ " +:+ d +:+ os_sep) <$> dirs)
        ++ ((λ f, "≡ " +:+ f) <$> files)
    ∧ dirs `sublist_of` names
    ∧ files `sublist_of` names
    ∧ Forall (λ d, isdir (join dir d) = true) dirs
    ∧ Forall (λ f, isdir (join dir f) = false) files
    ∧ (∀ name, name ∈ names →
         if isdir (join dir name) then name ∈ dirs else name ∈ files)
    ∧ dirs ++ files ≡ₚ names
    ∧ length (entry_lines isdir dir names) = length names
    ∧ dired_count isdir dir names = length names.
Proof.
  exists (filter (λ name, isdir (join dir name) = true) names),
         (filter (λ name, isdir (join dir name) ≠ true) names).
  repeat split.
  - apply sublist_filter.
  - apply sublist_filter.
  - apply Forall_forall. intros d Hd. by apply list_elem_of_filter in Hd as [? _].
  - apply Forall_forall. intros f Hf. apply list_elem_of_filter in Hf as [Hf _].
    by destruct (isdir (join dir f)).
  - intros name Hin. destruct (isdir (join dir name)) eqn:E;
      apply list_elem_of_filter; split; auto. congruence.
  - apply filter_app_complement.
  - apply entry_lines_length.
  - apply entry_lines_length.
Qed.

(** ** Target resolution *)

Lemma py_or_nonempty {A} (x y : list A) : x ≠ [] → py_or x y = x.
Proof. by destruct x. Qed.

Lemma py_or_empty {A} (y : list A) : py_or [] y = y.
Proof. done. Qed.

Section TargetResolution.
Context {W : Type} (H : Host W).

(** C4. Delete, move, quick-look and open-in-new-window all act on the
    marked names when there are any, and on the selected names only
    when nothing is marked. *)
Theorem marked_take_priority (v : View) (w : W) (dst : string) :
  let T := if decide (marked v = []) then selected v else marked v in
  targets v = T
  ∧ quick_look_run v
      = spawn (["qlmanage"; "-p"] ++ (join (path v) <$> T)) v
  ∧ (∃ exe, open_in_new_window_run H v
              = spawn ([exe; "-n"] ++ (join (path v) <$> T)) v)
  ∧ (T = [] → delete_run H v w = mkResult Returned v w)
  ∧ ((∀ msg, ok_cancel_dialog H msg = true) → T ≠ [] →
       (res_out (delete_run H v w), res_world (delete_run H v w))
         = delete_each H (path v) T w)
  ∧ move_run v = (if decide (T = []) then v else prompt_start "Move to:" v)
  ∧ (dst ≠ path v →
     os_isdir H w (if isabs dst then dst else join (path v) dst) = true →
       (res_out (move_to H dst v w), res_world (move_to H dst v w))
         = move_each H (path v)
             (normpath H (normcase H
                (if isabs dst then dst else join (path v) dst))) T w).
Proof.
  intros T.
  assert (HT : py_or (marked v) (selected v) = T).
  { subst T. destruct (marked v); done. }
  repeat split.
  - exact HT.
  - unfold quick_look_run. by rewrite HT.
  - eexists. unfold open_in_new_window_run. rewrite HT. reflexivity.
  - intros E. unfold delete_run. rewrite HT, E. done.
  - intros Hok Hne. unfold delete_run. rewrite HT.
    destruct T as [|f fs]; [done|]. rewrite Hok.
    destruct (delete_each H (path v) (f :: fs) w) as [[|e] w']; done.
  - unfold move_run. rewrite HT. destruct T; done.
  - intros Hne Hdir. unfold move_to.
    destruct (decide (dst = path v)); [done|].
    destruct (isabs dst); simpl in *; rewrite Hdir; simpl; rewrite HT;
      match goal with |- context [move_each ?a ?b ?c ?d ?e] =>
        destruct (move_each a b c d e) as [[|?] ?] end; done.
Qed.
End TargetResolution.

(** ** Create *)

Section Create.
Context {W : Type} (H : Host W).

(** C10. A name that is blank once stripped (empty, or made of
    whitespace only, of one byte or more) makes [_on_done] return at
    once: no file or directory is made, no error is reported and no
    refresh is requested. *)
Theorem create_blank_is_noop (which : kind) (value : string) (v : View) (w : W) :
  strip value = "" →
  create_on_done H which value v w = mkResult Returned v w.
Proof.
  intros Hblank. unfold create_on_done. rewrite Hblank.
  by destruct (decide ("" = "")).
Qed.

(** C8. For a name that is not blank, an existing target path is
    reported as already existing and nothing is created: the world is
    as it was and no refresh is run.  Otherwise a file request calls
    [open(fqn, 'wb')] and a directory request the recursive
    [os.makedirs(fqn)], once, and when the call returns the view is
    refreshed on the new name; on a host whose calls do what they are
    for, the path then holds an empty regular file, or a directory all
    of whose ancestors are directories.  An exception of the call ends
    the command before the refresh. *)
Theorem create_checks_existence (file_size : W → string → option nat)
    (which : kind) (value : string) (v : View) (w : W) :
  strip value ≠ "" →
  creates_entries H file_size →
  let fqn := join (path v) (strip value) in
  (os_exists H w fqn = true →
     create_on_done H which value v w
       = mkResult Returned (error_message (fqn +:+ " already exists") v) w)
  ∧ (os_exists H w fqn = false →
     match which with
     | KFile =>
         match os_open_wb H fqn w with
         | Some w' =>
             create_on_done H which value v w
               = mkResult Returned
                   (run_command "dired_refresh" (Some (strip value)) v) w'
             ∧ file_size w' fqn = Some 0
             ∧ os_exists H w' fqn = true
             ∧ os_isdir H w' fqn = false
         | None =>
             create_on_done H which value v w = mkResult (Raised OSError) v w
         end
     | KDirectory =>
         match os_makedirs H fqn w with
         | Some w' =>
             create_on_done H which value v w
               = mkResult Returned
                   (run_command "dired_refresh" (Some (strip value)) v) w'
             ∧ os_isdir H w' fqn = true
             ∧ Forall (λ q, os_isdir H w' q = true) (parents_from "" fqn)
         | None =>
             create_on_done H which value v w = mkResult (Raised OSError) v w
         end
     end).
Proof.
  intros Hname Hhost fqn. unfold create_on_done. fold fqn.
  destruct (decide (strip value = "")); [done|].
  split.
  - intros ->. done.
  - intros ->. destruct which.
    + destruct (os_open_wb H fqn w) as [w'|] eqn:Hopen; [|done].
      split; [done|]. by apply (open_wb_creates _ _ Hhost fqn w).
    + destruct (os_makedirs H fqn w) as [w'|] eqn:Hmk; [|done].
      split; [done|]. by apply (makedirs_creates _ _ Hhost fqn w).
Qed.
End Create.

Lemma create_blank_is_noop_witness :
  create_on_done mem_host KFile blank_name sample_view sample_world
    = mkResult Returned sample_view sample_world.
Proof. apply (create_blank_is_noop mem_host). reflexivity. Defined.

Lemma mem_parents_made (l : list string) (w : gmap string bool) (q : string) :
  q ∈ l → foldr (λ d acc, <[ d := true ]> acc) w l !! q = Some true.
Proof.
  induction l as [|d l IH]; intros Hq; [by apply elem_of_nil in Hq|].
  simpl. destruct (decide (q = d)) as [->|Hne].
  - by rewrite lookup_insert_eq.
  - rewrite lookup_insert_ne by done. apply IH.
    by apply elem_of_cons in Hq as [?|?].
Qed.

Lemma mem_creates : creates_entries mem_host mem_file_size.
Proof.
  split.
  - intros p w w' Hopen. simpl in Hopen.
    destruct (decide (w !! p = Some true)); [done|]. injection Hopen as <-.
    unfold mem_file_size. simpl. rewrite !lookup_insert_eq.
    split; [|split].
    + by destruct (decide (Some false = Some false)).
    + apply bool_decide_eq_true_2. by eexists.
    + by apply bool_decide_eq_false_2.
  - intros p w w' Hmk. simpl in Hmk.
    destruct (decide (is_Some (w !! p))); [done|]. injection Hmk as <-.
    simpl. split.
    + apply bool_decide_eq_true_2. by rewrite lookup_insert_eq.
    + apply Forall_forall. intros q Hq. apply bool_decide_eq_true_2.
      destruct (decide (q = p)) as [->|Hne]; [by rewrite lookup_insert_eq|].
      rewrite lookup_insert_ne by done. by apply mem_parents_made.
Qed.

Lemma create_checks_existence_witness :
  create_on_done mem_host KFile " a.txt" sample_view sample_world
    = mkResult Returned
        (error_message "/d/a.txt already exists" sample_view) sample_world
  ∧ create_on_done mem_host KDirectory "x/y " sample_view sample_world
    = mkResult Returned
        (run_command "dired_refresh" (Some "x/y") sample_view)
        (<[ "/d/x/y" := true ]> (<[ "/d/x" := true ]> sample_world))
  ∧ os_isdir mem_host
      (<[ "/d/x/y" := true ]> (<[ "/d/x" := true ]> sample_world)) "/d/x"
    = true.
Proof.
  split; [|split].
  - apply (create_checks_existence mem_host mem_file_size KFile " a.txt"
             sample_view sample_world);
      [ vm_compute; discriminate | apply mem_creates | reflexivity ].
  - apply (proj2 (create_checks_existence mem_host mem_file_size KDirectory
                    "x/y " sample_view sample_world
                    ltac:(vm_compute; discriminate) mem_creates)).
    reflexivity.
  - reflexivity.
Defined.

(** ** Move *)

Section Move.
Context {W : Type} (H : Host W).


Lemma move_each_refines (dir dest : string) (files : list string) (w : W) :
  move_each H dir dest files w
    = move_all H dest (filter (λ src, src ≠ dest) (normalise H dir <$> files)) w.
Proof.
  revert w. induction files as [|f files IH]; intros w; [done|].
  simpl. rewrite filter_cons. fold (normalise H dir f).
  destruct (decide (normalise H dir f ≠ dest)); simpl.
  - destruct (shutil_move H (normalise H dir f) dest w); [apply IH | done].
  - apply IH.
Qed.

(** C6. In a batch move a source whose normalised path is the normalised
    destination is skipped without calling the move primitive and
    without an error, and the loop goes on with the rest; the sources
    handed to the primitive are exactly the others, in order. *)
Theorem move_skips_destination (dir dest : string) (files : list string) (w : W) :
  (∀ filename rest w0,
      normalise H dir filename = dest →
      move_each H dir dest (filename :: rest) w0 = move_each H dir dest rest w0)
  ∧ (∀ filename rest w0,
      normalise H dir filename ≠ dest →
      move_each H dir dest (filename :: rest) w0
        = match shutil_move H (normalise H dir filename) dest w0 with
          | Some w1 => move_each H dir dest rest w1
          | None => (Raised OSError, w0)
          end)
  ∧ move_each H dir dest files w
      = move_all H dest
          (filter (λ src, src ≠ dest) (normalise H dir <$> files)) w
  ∧ (Forall (λ filename, normalise H dir filename = dest) files →
      move_each H dir dest files w = (Returned, w)).
Proof.
  repeat split.
  - intros f rest w0 E. simpl. fold (normalise H dir f).
    destruct (decide (normalise H dir f ≠ dest)); done.
  - intros f rest w0 E. simpl. fold (normalise H dir f).
    destruct (decide (normalise H dir f ≠ dest)); done.
  - apply move_each_refines.
  - intros Hall. rewrite move_each_refines.
    replace (filter (λ src, src ≠ dest) (normalise H dir <$> files)) with (@nil string);
      [done|].
    symmetry. induction Hall as [|f fs Hf _ IH]; [done|].
    rewrite fmap_cons, filter_cons. destruct (decide (normalise H dir f ≠ dest)); done.
Qed.
End Move.

Lemma move_skips_destination_witness :
  move_each mem_host "/d" "/d/sub" ["sub"; "a.txt"] sample_world
  = (Returned, <[ "/d/sub/a.txt" := false ]> (delete "/d/a.txt" sample_world)).
Proof.
  rewrite (proj1 (proj2 (proj2
             (move_skips_destination mem_host "/d" "/d/sub" ["sub"; "a.txt"]
                sample_world)))).
  reflexivity.
Defined.



(** ** Mark by extension *)

Lemma markfunc_spec (e : string) (old : bool) (name : string) :
  _markfunc e old name = if endswith name e then true else old.
Proof. unfold _markfunc. by destruct (endswith name e). Qed.

Lemma mark_step_elem (e name x : string) (acc : gset string) :
  x ∈ (if _markfunc e (bool_decide (name ∈ acc)) name
       then acc ∪ {[ name ]} else acc ∖ {[ name ]})
  ↔ x ∈ acc ∨ (x = name ∧ endswith name e = true).
Proof.
  rewrite markfunc_spec. destruct (endswith name e) eqn:E.
  - set_solver.
  - case_bool_decide; set_solver.
Qed.

Lemma mark_extension_elem (e : string) (entries : list string)
    (marks : gset string) (x : string) :
  x ∈ _mark (_markfunc e) entries marks
  ↔ x ∈ marks ∨ (x ∈ entries ∧ endswith x e = true).
Proof.
  unfold _mark. revert marks.
  induction entries as [|name entries IH]; intros marks; simpl.
  - set_solver.
  - rewrite IH, mark_step_elem. set_solver.
Qed.

(** C7 (as amended). After mark-by-extension has run over the entry
    lines with suffix [e], a name is marked exactly when it was marked
    before or it is an entry ending in [e]; so an entry is marked if and
    only if it ends in [e] or was already marked, and for an entry that
    was not marked the new state is the predicate "ends in [e]". *)
Theorem mark_extension_adds_matches (e : string) (entries : list string)
    (v : View) (marks : gset string) :
  let marks' := (mark_extension_run (Some e) entries v marks).2 in
  (∀ x, x ∈ marks' ↔ x ∈ marks ∨ (x ∈ entries ∧ endswith x e = true))
  ∧ (∀ x, x ∈ entries → (x ∈ marks' ↔ endswith x e = true ∨ x ∈ marks))
  ∧ (∀ x, x ∈ entries → x ∉ marks → (x ∈ marks' ↔ endswith x e = true))
  ∧ (mark_extension_run (Some e) entries v marks).1 = v.
Proof.
  assert (Hrun : ∀ x, x ∈ (mark_extension_run (Some e) entries v marks).2
                 ↔ x ∈ marks ∨ (x ∈ entries ∧ endswith x e = true)).
  { intros x. destruct entries as [|name entries]; simpl.
    - set_solver.
    - apply (mark_extension_elem e (name :: entries)). }
  simpl. repeat split.
  - apply Hrun.
  - apply Hrun.
  - intros Hx. apply Hrun in Hx. tauto.
  - intros [?|?]; apply Hrun; tauto.
  - intros Hx. apply Hrun in Hx. tauto.
  - intros Hx. apply Hrun. tauto.
  - by destruct entries.
Qed.

(** C7, counterexample. "b.txt" is marked and does not end in ".py";
    after marking by ".py" it is still marked. *)
Lemma mark_extension_keeps_old_marks :
  endswith "b.txt" ".py" = false
  ∧ bool_decide ("b.txt" ∈ (mark_extension_run (Some ".py") ["a.py"; "b.txt"]
                             sample_view {[ "b.txt" ]}).2) = true.
Proof. split; reflexivity. Qed.

(** ** Rename commit: validation *)

Lemma size_list_to_set_le (l : list string) :
  size (list_to_set l : gset string) ≤ length l.
Proof.
  induction l as [|x l IH]; simpl.
  - done.
  - rewrite size_union_alt, size_singleton.
    assert (size ((list_to_set l : gset string) ∖ {[ x ]})
            ≤ size (list_to_set l : gset string)).
    { apply subseteq_size. set_solver. }
    lia.
Qed.

Lemma size_list_to_set_NoDup (l : list string) :
  size (list_to_set l : gset string) = length l ↔ NoDup l.
Proof.
  split; [| apply size_list_to_set].
  induction l as [|x l IH]; simpl; intros Hsize.
  - constructor.
  - pose proof (size_list_to_set_le l) as Hle.
    destruct (decide (x ∈ l)) as [Hin|Hnin].
    + replace ({[ x ]} ∪ list_to_set l : gset string)
        with (list_to_set l : gset string) in Hsize by set_solver.
      lia.
    + rewrite size_union_alt, size_singleton in Hsize.
      replace ((list_to_set l : gset string) ∖ {[ x ]})
        with (list_to_set l : gset string) in Hsize by set_solver.
      constructor; [done|]. apply IH. lia.
Qed.

Lemma compute_diffs_same (l : list string) : compute_diffs l l = [].
Proof.
  unfold compute_diffs. induction l as [|x l IH]; [done|].
  simpl. rewrite filter_cons. simpl. by destruct (decide (x ≠ x)).
Qed.

Section CommitValidation.
Context {W : Type} (H : RenameHost W) (remove_ui : string → string).

(** C2 (as amended). With baseline [before]: an edited list of another
    length is refused with the line-count message; an edited list of the
    same length that repeats a name is refused with the duplicate-name
    message.  In both cases the world, the temporary-name counter and
    the rename log are as before, and so are the stored baseline, the
    rename-mode flag and the edited lines. *)
Theorem commit_validation_atomic (fuel : nat) (v : View) (m : machine W)
    (before : list string) :
  rename v = Some before →
  let after := edited_names remove_ui v in
  (length after ≠ length before →
     rename_commit H remove_ui fuel v m
       = Some (mkResult Returned
                 (error_message "You cannot add or remove lines" v) m))
  ∧ (length after = length before → ¬ NoDup after →
     rename_commit H remove_ui fuel v m
       = Some (mkResult Returned
                 (error_message "There are duplicate filenames" v) m))
  ∧ (length after ≠ length before ∨ ¬ NoDup after →
     ∃ r msg, rename_commit H remove_ui fuel v m = Some r
       ∧ res_out r = Returned
       ∧ res_world r = m
       ∧ errors (res_view r) = errors v ++ [msg]
       ∧ rename (res_view r) = Some before
       ∧ dired_rename_mode (res_view r) = dired_rename_mode v
       ∧ rename_lines (res_view r) = rename_lines v
       ∧ commands (res_view r) = commands v).
Proof.
  intros Hbase after.
  assert (Hlen : length after ≠ length before →
     rename_commit H remove_ui fuel v m
       = Some (mkResult Returned
                 (error_message "You cannot add or remove lines" v) m)).
  { intros Hne. unfold rename_commit. rewrite Hbase. fold after.
    by destruct (decide (length after ≠ length before)). }
  assert (Hdup : length after = length before → ¬ NoDup after →
     rename_commit H remove_ui fuel v m
       = Some (mkResult Returned
                 (error_message "There are duplicate filenames" v) m)).
  { intros Heq Hnd. unfold rename_commit. rewrite Hbase. fold after.
    destruct (decide (length after ≠ length before)); [done|].
    destruct (decide (size (list_to_set after : gset string) ≠ length after))
      as [|Hsz]; [done|].
    exfalso. apply Hnd, size_list_to_set_NoDup.
    destruct (decide (size (list_to_set after : gset string) = length after)); done. }
  split; [exact Hlen|]. split; [exact Hdup|].
  intros Hbad.
  destruct (decide (length after = length before)) as [Heq|Hne].
  - destruct Hbad as [?|Hnd]; [done|].
    eexists _, _. split; [by apply Hdup|]. by repeat split.
  - eexists _, _. split; [by apply Hlen|]. by repeat split.
Qed.

End CommitValidation.

(** C2, counterexample. The baseline is ["a"] and the edited lines read
    "b" twice: the list has a duplicate, yet the commit reports the
    line-count message and not the duplicate-name message. *)
Lemma duplicate_with_extra_line_reports_line_count :
  edited_names sample_remove_ui (rename_view ["a"] ["≡ b"; "≡ b"]) = ["b"; "b"]
  ∧ (res_view <$> rename_commit mem_rename_host sample_remove_ui 8
                    (rename_view ["a"] ["≡ b"; "≡ b"]) sample_machine)
    = Some (error_message "You cannot add or remove lines"
              (rename_view ["a"] ["≡ b"; "≡ b"])).
Proof. split; reflexivity. Qed.

Lemma commit_validation_atomic_witness :
  rename_commit mem_rename_host sample_remove_ui 8
    (rename_view ["a"; "b"] ["≡ a"; "≡ a"]) sample_machine
  = Some (mkResult Returned
            (error_message "There are duplicate filenames"
               (rename_view ["a"; "b"] ["≡ a"; "≡ a"])) sample_machine).
Proof.
  apply (commit_validation_atomic mem_rename_host sample_remove_ui 8
           (rename_view ["a"; "b"] ["≡ a"; "≡ a"]) sample_machine ["a"; "b"]);
    [ reflexivity | reflexivity | ].
  vm_compute. intros Hnd. apply NoDup_cons in Hnd as [Hin _].
  apply Hin. left.
Defined.



(** ** Rename commit: the host *)

Lemma moves_by_name {W V : Type} (H : RenameHost W)
    (content : W → string → option V) (dir : string) (K : string → Prop)
    (w : W) (x y : string) (f : V) :
  moves_entries H content dir K →
  K x → K y →
  content w (join dir x) = Some f →
  content w (join dir y) = None →
  ∃ w', os_rename H (join dir x) (join dir y) w = inr w'
    ∧ content w' (join dir y) = Some f
    ∧ content w' (join dir x) = None
    ∧ ∀ z, K z → z ≠ x → z ≠ y →
        content w' (join dir z) = content w (join dir z).
Proof.
  intros Hmove Hx Hy Hf Hn.
  destruct (rename_moves _ _ _ _ Hmove w x y f Hx Hy Hf Hn)
    as (w' & Hren & Hy' & Hx' & Hfr).
  exists w'. repeat split; try done.
  intros z Hz Hzx Hzy. apply Hfr; [done | |]; intros E.
  - apply Hzx. by apply (entries_apart _ _ _ _ Hmove).
  - apply Hzy. by apply (entries_apart _ _ _ _ Hmove).
Qed.

Lemma moves_entries_weaken {W V : Type} (H : RenameHost W)
    (content : W → string → option V) (dir : string) (K K' : string → Prop) :
  (∀ x, K' x → K x) →
  moves_entries H content dir K → moves_entries H content dir K'.
Proof.
  intros Hsub [Hap Hmv]. split.
  - intros x y Hx Hy. apply Hap; by apply Hsub.
  - intros w x y f Hx Hy Hf Hn.
    destruct (Hmv w x y f (Hsub _ Hx) (Hsub _ Hy) Hf Hn)
      as (w' & Hren & Hy' & Hx' & Hfr).
    exists w'. repeat split; try done.
    intros z Hz. apply Hfr. by apply Hsub.
Qed.


Section LoopSteps.
Context {W : Type} (H : RenameHost W).

Lemma loop_step_hop (dir : string) (s : loop_state W) b a rest t w1 w2 w' :
  diffs s = (b, a) :: rest →
  a ∈ existing s → b ∈ existing s →
  named_temporary_file H dir (world s) = inr (t, w1) →
  os_unlink H t w1 = inr w2 →
  os_rename H (join dir b) (join dir t) w2 = inr w' →
  loop_step H dir s
    = Next (mkLoop (rest ++ [(t, a)]) (existing s ∖ {[ b ]} ∪ {[ t ]}) w'
              (S (tmp_next s)) (renames s ++ [(b, t)])).
Proof.
  intros Hd Ha Hb Hntf Hunl Hren. unfold loop_step. rewrite Hd.
  destruct (decide (a ∈ existing s)); [|done].
  rewrite Hntf, Hunl. unfold rename_entry. rewrite Hren.
  by destruct (decide (b ∈ existing s)).
Qed.

Lemma loop_step_direct (dir : string) (s : loop_state W) b a rest w' :
  diffs s = (b, a) :: rest →
  a ∉ existing s → b ∈ existing s →
  os_rename H (join dir b) (join dir a) (world s) = inr w' →
  loop_step H dir s
    = Next (mkLoop rest (existing s ∖ {[ b ]} ∪ {[ a ]}) w'
              (tmp_next s) (renames s ++ [(b, a)])).
Proof.
  intros Hd Ha Hb Hren. unfold loop_step. rewrite Hd.
  destruct (decide (a ∈ existing s)); [done|].
  unfold rename_entry. rewrite Hren.
  by destruct (decide (b ∈ existing s)).
Qed.

(** Whatever a step does, the renames made before it stay on record and
    no temporary name is given back. *)
Lemma loop_step_log (dir : string) (s : loop_state W) :
  match loop_step H dir s with
  | Done => True
  | Next s' | Raise _ s' =>
      renames s `prefix_of` renames s' ∧ tmp_next s ≤ tmp_next s'
  end.
Proof.
  unfold loop_step. destruct (diffs s) as [|[b a] rest]; [done|].
  assert (Hentry : ∀ queue a' w n, tmp_next s ≤ n →
            match rename_entry H dir s queue b a' w n with
            | Done => True
            | Next s' | Raise _ s' =>
                renames s `prefix_of` renames s' ∧ tmp_next s ≤ tmp_next s'
            end).
  { intros queue a' w n Hn. unfold rename_entry.
    destruct (os_rename _ _ _ _); [done|].
    destruct (decide (b ∈ existing s)); simpl;
      (split; [by apply prefix_app_r | done]). }
  destruct (decide (a ∈ existing s)).
  - destruct (named_temporary_file _ _ _) as [e1|[t w1]]; [done|].
    destruct (os_unlink _ _ _) as [e2|w2]; [simpl; split; [done | lia]|].
    apply Hentry. lia.
  - by apply Hentry.
Qed.

Lemma rename_loop_log (dir : string) (fuel : nat) :
  ∀ (s s' : loop_state W) (o : outcome),
  rename_loop H dir fuel s = Some (o, s') →
  renames s `prefix_of` renames s' ∧ tmp_next s ≤ tmp_next s'.
Proof.
  induction fuel as [|fuel IH]; intros s s' o Hrun; [done|]. simpl in Hrun.
  pose proof (loop_step_log dir s) as Hstep.
  destruct (loop_step H dir s) as [|s1|e s1].
  - by injection Hrun as <- <-.
  - destruct (IH _ _ _ Hrun) as [Hp Ho]. destruct Hstep.
    split; [by etrans | lia].
  - by injection Hrun as <- <-.
Qed.
End LoopSteps.
(** ** Rename commit: the work queue *)

Section LoopInvariant.
Context {W V : Type} (H : RenameHost W) (content : W → string → option V).
Context (dir : string) (D : list (string * string)) (F : list string) (w0 : W).
Context (n0 r0 : nat).

Hypothesis Hsrc_nodup : NoDup D.*1.
Hypothesis Hdst_nodup : NoDup D.*2.
Hypothesis Hfixed : ∀ f, f ∈ F → (f ∉ D.*1) ∧ (f ∉ D.*2).
Hypothesis Htmp_fresh : ∀ t, drawn H dir t →
  (t ∉ D.*1) ∧ (t ∉ D.*2) ∧ t ∉ F.
Hypothesis Hsrc : ∀ b, b ∈ D.*1 → is_Some (content w0 (join dir b)).
Hypothesis Hdraw : ∀ w, ∃ t w1 w2,
  named_temporary_file H dir w = inr (t, w1)
  ∧ os_unlink H t w1 = inr w2
  ∧ content w (join dir t) = None
  ∧ ∀ x, known H dir D F x →
      content w2 (join dir x) = content w (join dir x).
Hypothesis Hmove : moves_entries H content dir (known H dir D F).

Lemma move_names (w : W) (x y : string) (f : V) :
  known H dir D F x → known H dir D F y →
  content w (join dir x) = Some f →
  content w (join dir y) = None →
  ∃ w', os_rename H (join dir x) (join dir y) w = inr w'
    ∧ content w' (join dir y) = Some f
    ∧ content w' (join dir x) = None
    ∧ ∀ z, known H dir D F z → z ≠ x → z ≠ y →
        content w' (join dir z) = content w (join dir z).
Proof. intros Hx Hy Hf Hn. by eapply moves_by_name. Qed.

Lemma pair_in_fst (b a : string) (l : list (string * string)) :
  (b, a) ∈ l → b ∈ l.*1.
Proof. intros Hin. apply list_elem_of_fmap. by exists (b, a). Qed.

Lemma pair_in_snd (b a : string) (l : list (string * string)) :
  (b, a) ∈ l → a ∈ l.*2.
Proof. intros Hin. apply list_elem_of_fmap. by exists (b, a). Qed.

Lemma known_src (b : string) : b ∈ D.*1 → known H dir D F b.
Proof. by left. Qed.

Lemma known_dst (a : string) : a ∈ D.*2 → known H dir D F a.
Proof. by right; left. Qed.

Lemma known_fixed (f : string) : f ∈ F → known H dir D F f.
Proof. by right; right; left. Qed.

Lemma known_tmp (t : string) : drawn H dir t → known H dir D F t.
Proof. by right; right; right. Qed.

Lemma inv_members (s : loop_state W) Dn R Q :
  loop_inv H content dir D F w0 n0 r0 s Dn R Q →
  (∀ b a, (b, a) ∈ R → (b, a) ∈ D)
  ∧ (∀ q, q ∈ Q → (q_src q, q_dst q) ∈ D)
  ∧ (∀ b a, (b, a) ∈ Dn → (b, a) ∈ D)
  ∧ NoDup ((Dn ++ (orig_pair <$> Q) ++ R).*1)
  ∧ NoDup ((Dn ++ (orig_pair <$> Q) ++ R).*2).
Proof.
  intros I. pose proof (inv_perm _ _ _ _ _ _ _ _ _ _ _ _ I) as Hp.
  repeat split.
  - intros b a Hin. rewrite Hp. set_solver.
  - intros q Hin. rewrite Hp. apply elem_of_app. right.
    apply elem_of_app. left. apply list_elem_of_fmap. by exists q.
  - intros b a Hin. rewrite Hp. set_solver.
  - by rewrite <- Hp.
  - by rewrite <- Hp.
Qed.

(** A pair whose target name is still taken: the file goes to a fresh
    temporary name and the pair is queued again from there. *)
Lemma step_hop (s : loop_state W) Dn b a R Q :
  loop_inv H content dir D F w0 n0 r0 s Dn ((b, a) :: R) Q →
  a ∈ existing s →
  ∃ s' t, loop_step H dir s = Next s'
    ∧ loop_inv H content dir D F w0 n0 r0 s' Dn R (Q ++ [(t, b, a)]).
Proof.
  intros I Ha.
  destruct (inv_members _ _ _ _ I) as (HinR & HinQ & HinDn & ND1 & ND2).
  destruct I as [Hp Hq Hbud Hn0 Htm Htnd Hex Hraw Hhop Hdone Hfix Hclr Hfree Hlog].
  destruct (Hdraw (world s)) as (t & w1 & w2 & Hntf & Hunl & Htnone & Hfr0).
  assert (Hdr : drawn H dir t) by (by exists (world s), w1).
  destruct (Htmp_fresh t Hdr) as (Ht1 & Ht2 & Ht3).
  assert (HbD : b ∈ D.*1) by (eapply pair_in_fst, HinR; left).
  destruct (Hraw b a ltac:(left)) as [Hbex Hbfs].
  destruct (Hsrc b HbD) as [f Hf]. rewrite Hf in Hbfs.
  assert (Hkt : known H dir D F t) by by apply known_tmp.
  assert (Hkb : known H dir D F b) by by apply known_src.
  assert (Hold : ∀ q, q ∈ Q → q_tmp q ≠ t ∧ q_tmp q ≠ b
                               ∧ known H dir D F (q_tmp q)).
  { intros q Hq'. destruct (Hhop q Hq') as [_ Hqfs].
    destruct (Hsrc (q_src q)) as [g Hg].
    { eapply pair_in_fst. by apply HinQ. }
    destruct (Htmp_fresh _ (Htm q Hq')) as (Hq1 & _).
    repeat split.
    - intros E. rewrite E, Htnone, Hg in Hqfs. done.
    - intros E. by rewrite E in Hq1.
    - apply known_tmp. by apply Htm. }
  assert (HR1 : ∀ b', b' ∈ R.*1 → b' ≠ b ∧ b' ≠ t ∧ b' ∈ D.*1).
  { intros b' Hb'. apply list_elem_of_fmap in Hb' as ([b1 a1] & -> & Hin).
    simpl. assert ((b1, a1) ∈ D) by (apply HinR; by right).
    repeat split; [| | by eapply pair_in_fst].
    - intros ->. rewrite !fmap_app, fmap_cons in ND1.
      apply NoDup_app in ND1 as (_ & _ & ND1).
      apply NoDup_app in ND1 as (_ & _ & ND1).
      apply NoDup_cons in ND1 as [ND1 _]. apply ND1.
      by eapply pair_in_fst.
    - intros ->. apply Ht1. by eapply pair_in_fst. }
  destruct (move_names w2 b t f Hkb Hkt) as (w' & Hren & Hwt & Hwb & Hfr1).
  { by rewrite Hfr0. }
  { by rewrite Hfr0. }
  assert (Hfr : ∀ z, known H dir D F z → z ≠ b → z ≠ t →
            content w' (join dir z) = content (world s) (join dir z)).
  { intros z Hz Hzb Hzt. rewrite Hfr1 by done. by apply Hfr0. }
  exists (mkLoop ((R ++ (hop_pair <$> Q)) ++ [(t, a)])
            (existing s ∖ {[ b ]} ∪ {[ t ]}) w' (S (tmp_next s))
            (renames s ++ [(b, t)])), t.
  split.
  { unfold loop_step. rewrite Hq. simpl.
    destruct (decide (a ∈ existing s)); [|done].
    rewrite Hntf, Hunl. unfold rename_entry. rewrite Hren.
    destruct (decide (b ∈ existing s)); [reflexivity | done]. }
  split; simpl.
  - rewrite Hp, fmap_app. simpl. by rewrite <- (assoc_L (++)).
  - rewrite fmap_app. simpl. by rewrite (assoc_L (++)).
  - simpl in Hbud. lia.
  - lia.
  - intros q Hq'. apply elem_of_app in Hq' as [Hq'|Hq'].
    + by apply Htm.
    + by apply list_elem_of_singleton in Hq' as ->.
  - rewrite fmap_app. simpl. apply NoDup_app. repeat split; [done | | ].
    + intros x Hx Hx'. apply list_elem_of_singleton in Hx' as ->.
      apply list_elem_of_fmap in Hx as (q & Eq & Hq').
      destruct (Hold q Hq') as (Hne & _). by apply Hne.
    + apply NoDup_singleton.
  - intros x Hx. apply elem_of_union in Hx as [Hx|Hx].
    + apply elem_of_difference in Hx as [Hx Hxb].
      destruct (Hex x Hx) as [?|[Hx1|[?|?]]]; [by left | | by right; right; left | ].
      * rewrite fmap_cons in Hx1. apply elem_of_cons in Hx1 as [->|?];
          [set_solver | by right; left].
      * right; right; right. rewrite fmap_app. apply elem_of_app. by left.
    + apply elem_of_singleton in Hx as ->. right; right; right.
      rewrite fmap_app. apply elem_of_app. right. by left.
  - intros b' a' Hin. destruct (Hraw b' a' ltac:(by right)) as [Hb'ex Hb'fs].
    destruct (HR1 b' ltac:(by eapply pair_in_fst)) as (Hne1 & Hne2 & HbD').
    split; [set_solver|].
    rewrite Hfr; [done | by apply known_src | done | done].
  - intros q Hq'. apply elem_of_app in Hq' as [Hq'|Hq'].
    + destruct (Hhop q Hq') as [Hqex Hqfs]. destruct (Hold q Hq') as (Hne1 & Hne2 & Hkq).
      split; [set_solver|].
      rewrite Hfr; done.
    + apply list_elem_of_singleton in Hq' as ->. unfold q_tmp, q_src. simpl.
      split; [set_solver|]. by rewrite Hwt.
  - intros b' a' Hin.
    assert (Ha'D : a' ∈ D.*2) by (eapply pair_in_snd, HinDn, Hin).
    rewrite Hfr; [by eapply Hdone | by apply known_dst | |].
    + intros ->. eapply Hclr; [done|]. rewrite fmap_cons. by left.
    + by intros ->.
  - intros x Hx. destruct (Hfixed x Hx) as [Hx1 Hx2].
    rewrite Hfr; [by apply Hfix | by apply known_fixed | |].
    + by intros ->.
    + by intros ->.
  - intros b' a' Hin Hmem. eapply Hclr; [done|]. rewrite fmap_cons. by right.
  - intros x Hx Hxe.
    destruct (decide (x = b)) as [->|Hxb]; [done|].
    assert (Hxt : x ≠ t) by (intros ->; by destruct Hx).
    rewrite Hfr; [| destruct Hx; [by apply known_src | by apply known_dst] | done | done].
    apply Hfree; [done|]. set_solver.
  - rewrite length_app. simpl. lia.
Qed.

(** A pair whose target name is free: the file goes straight there. *)
Lemma step_direct (s : loop_state W) Dn b a R Q :
  loop_inv H content dir D F w0 n0 r0 s Dn ((b, a) :: R) Q →
  a ∉ existing s →
  ∃ s', loop_step H dir s = Next s'
    ∧ loop_inv H content dir D F w0 n0 r0 s' ((b, a) :: Dn) R Q
    ∧ tmp_next s' = tmp_next s
    ∧ renames s' = renames s ++ [(b, a)].
Proof.
  intros I Ha.
  destruct (inv_members _ _ _ _ I) as (HinR & HinQ & HinDn & ND1 & ND2).
  destruct I as [Hp Hq Hbud Hn0 Htm Htnd Hex Hraw Hhop Hdone Hfix Hclr Hfree Hlog].
  assert (HbaD : (b, a) ∈ D) by (apply HinR; left).
  assert (HbD : b ∈ D.*1) by by eapply pair_in_fst.
  assert (HaD : a ∈ D.*2) by by eapply pair_in_snd.
  destruct (Hraw b a ltac:(left)) as [Hbex Hbfs].
  destruct (Hsrc b HbD) as [f Hf]. rewrite Hf in Hbfs.
  assert (Hka : known H dir D F a) by by apply known_dst.
  assert (Hkb : known H dir D F b) by by apply known_src.
  assert (Hold : ∀ q, q ∈ Q → q_tmp q ≠ a ∧ q_tmp q ≠ b
                               ∧ known H dir D F (q_tmp q)).
  { intros q Hq'. destruct (Htmp_fresh _ (Htm q Hq')) as (Hk1 & Hk2 & _).
    repeat split; [by intros E; rewrite E in Hk2
                  | by intros E; rewrite E in Hk1 | by apply known_tmp, Htm]. }
  assert (HR1 : ∀ b', b' ∈ R.*1 → b' ≠ b ∧ b' ≠ a ∧ b' ∈ D.*1).
  { intros b' Hb'. apply list_elem_of_fmap in Hb' as ([b1 a1] & -> & Hin).
    simpl. assert ((b1, a1) ∈ D) by (apply HinR; by right).
    repeat split; [| | by eapply pair_in_fst].
    - intros ->. rewrite !fmap_app, fmap_cons in ND1.
      apply NoDup_app in ND1 as (_ & _ & ND1).
      apply NoDup_app in ND1 as (_ & _ & ND1).
      apply NoDup_cons in ND1 as [ND1 _]. apply ND1.
      by eapply pair_in_fst.
    - intros ->. apply Ha. apply (Hraw a a1). by right. }
  assert (HDn2 : ∀ a', a' ∈ Dn.*2 → a' ≠ a).
  { intros a' Ha' ->. rewrite !fmap_app, fmap_cons in ND2.
    apply NoDup_app in ND2 as (_ & ND2 & _). apply (ND2 a Ha').
    apply elem_of_app. right. by left. }
  destruct (move_names (world s) b a f Hkb Hka Hbfs) as (w' & Hren & Hwa & Hwb & Hfr).
  { apply Hfree; [by right | done]. }
  exists (mkLoop (R ++ (hop_pair <$> Q)) (existing s ∖ {[ b ]} ∪ {[ a ]}) w'
            (tmp_next s) (renames s ++ [(b, a)])).
  split.
  { unfold loop_step. rewrite Hq. simpl.
    destruct (decide (a ∈ existing s)); [done|].
    unfold rename_entry. rewrite Hren.
    destruct (decide (b ∈ existing s)); [reflexivity | done]. }
  split; [|done].
  split; simpl.
  - rewrite Hp. rewrite (assoc_L (++)). rewrite <- Permutation_middle.
    by rewrite <- (assoc_L (++)).
  - done.
  - simpl in Hbud. lia.
  - lia.
  - done.
  - done.
  - intros x Hx. apply elem_of_union in Hx as [Hx|Hx].
    + apply elem_of_difference in Hx as [Hx Hxb].
      destruct (Hex x Hx) as [?|[Hx1|[?|?]]];
        [by left | | by right; right; left; right | by right; right; right].
      rewrite fmap_cons in Hx1. apply elem_of_cons in Hx1 as [->|?];
        [set_solver | by right; left].
    + apply elem_of_singleton in Hx as ->. right; right; left. by left.
  - intros b' a' Hin. destruct (Hraw b' a' ltac:(by right)) as [Hb'ex Hb'fs].
    destruct (HR1 b' ltac:(by eapply pair_in_fst)) as (Hne1 & Hne2 & HbD').
    split; [set_solver|].
    rewrite Hfr; [done | by apply known_src | done | done].
  - intros q Hq'. destruct (Hhop q Hq') as [Hqex Hqfs].
    destruct (Hold q Hq') as (Hne1 & Hne2 & Hkq).
    split; [set_solver|].
    rewrite Hfr; done.
  - intros b' a' Hin. apply elem_of_cons in Hin as [[= -> ->]|Hin].
    + by rewrite Hwa.
    + assert (Ha'D : a' ∈ D.*2) by (eapply pair_in_snd, HinDn, Hin).
      rewrite Hfr; [by eapply Hdone | by apply known_dst | |].
      * intros ->. eapply Hclr; [done|]. rewrite fmap_cons. by left.
      * apply HDn2. by eapply pair_in_snd.
  - intros x Hx. destruct (Hfixed x Hx) as [Hx1 Hx2].
    rewrite Hfr; [by apply Hfix | by apply known_fixed | |].
    + by intros ->.
    + by intros ->.
  - intros b' a' Hin Hmem. apply elem_of_cons in Hin as [[= -> ->]|Hin].
    + apply list_elem_of_fmap in Hmem as ([b1 a1] & E & Hin). simpl in E. subst.
      apply Ha. apply (Hraw b1 a1). by right.
    + eapply Hclr; [done|]. rewrite fmap_cons. by right.
  - intros x Hx Hxe.
    destruct (decide (x = b)) as [->|Hxb]; [done|].
    assert (Hxa : x ≠ a) by set_solver.
    rewrite Hfr; [| destruct Hx; [by apply known_src | by apply known_dst] | done | done].
    apply Hfree; [done|]. set_solver.
  - rewrite length_app. simpl. lia.
Qed.

(** A deferred pair: by the time it is reached every original pair has
    been handled, so its target name is free and the file leaves its
    temporary name for it. *)
Lemma step_deferred (s : loop_state W) Dn q Q :
  loop_inv H content dir D F w0 n0 r0 s Dn [] (q :: Q) →
  ∃ s', loop_step H dir s = Next s'
    ∧ loop_inv H content dir D F w0 n0 r0 s' ((q_src q, q_dst q) :: Dn) [] Q
    ∧ tmp_next s' = tmp_next s.
Proof.
  intros I.
  destruct (inv_members _ _ _ _ I) as (HinR & HinQ & HinDn & ND1 & ND2).
  destruct I as [Hp Hq Hbud Hn0 Htm Htnd Hex Hraw Hhop Hdone Hfix Hclr Hfree Hlog].
  destruct q as [[t b] a].
  change (q_src (t, b, a)) with b. change (q_dst (t, b, a)) with a.
  assert (HbaD : (b, a) ∈ D) by (apply (HinQ (t, b, a)); left).
  assert (HbD : b ∈ D.*1) by by eapply pair_in_fst.
  assert (HaD : a ∈ D.*2) by by eapply pair_in_snd.
  destruct (Hhop (t, b, a) ltac:(left)) as [Htex Htfs].
  change (q_tmp (t, b, a)) with t in Htex, Htfs.
  change (q_src (t, b, a)) with b in Htfs.
  destruct (Hsrc b HbD) as [f Hf]. rewrite Hf in Htfs.
  assert (Htmps : ∀ q', q' ∈ (t, b, a) :: Q →
            (q_tmp q' ∉ D.*1) ∧ (q_tmp q' ∉ D.*2) ∧ (q_tmp q' ∉ F)
            ∧ known H dir D F (q_tmp q')).
  { intros q' Hq'. destruct (Htmp_fresh _ (Htm q' Hq')) as (Hk1 & Hk2 & Hk3).
    repeat split; [done | done | done | by apply known_tmp, Htm]. }
  destruct (Htmps (t, b, a) ltac:(left)) as (Ht1 & Ht2 & Ht3 & Hkt).
  change (q_tmp (t, b, a)) with t in Ht1, Ht2, Ht3, Hkt.
  assert (Hka : known H dir D F a) by by apply known_dst.
  assert (HDn2 : ∀ a', a' ∈ Dn.*2 → a' ≠ a).
  { intros a' Ha' ->. rewrite !fmap_app, fmap_cons in ND2.
    apply NoDup_app in ND2 as (_ & ND2 & _). apply (ND2 a Ha').
    apply elem_of_app. left. by left. }
  assert (Ha : a ∉ existing s).
  { intros Hin. destruct (Hex a Hin) as [HaF|[HaR|[HaDn|HaQ]]].
    - by destruct (Hfixed a HaF).
    - set_solver.
    - by apply (HDn2 a).
    - apply list_elem_of_fmap in HaQ as (q' & E & Hq').
      destruct (Htmps q' Hq') as (_ & Hno & _). by rewrite <- E in Hno. }
  apply NoDup_cons in Htnd as [HtQ HndQ].
  destruct (move_names (world s) t a f Hkt Hka Htfs) as (w' & Hren & Hwa & Hwt & Hfr).
  { apply Hfree; [by right | done]. }
  exists (mkLoop (hop_pair <$> Q) (existing s ∖ {[ t ]} ∪ {[ a ]}) w'
            (tmp_next s) (renames s ++ [(t, a)])).
  split; [|split].
  { unfold loop_step. rewrite Hq. simpl. unfold q_tmp, q_dst. simpl.
    destruct (decide (a ∈ existing s)); [done|].
    unfold rename_entry. rewrite Hren.
    destruct (decide (t ∈ existing s)); [reflexivity | done]. }
  2: done.
  split; simpl.
  - rewrite Hp. symmetry. apply Permutation_middle.
  - done.
  - lia.
  - lia.
  - intros q' Hq'. apply Htm. by right.
  - done.
  - intros x Hx. apply elem_of_union in Hx as [Hx|Hx].
    + apply elem_of_difference in Hx as [Hx Hxt].
      destruct (Hex x Hx) as [?|[?|[?|Hx1]]];
        [by left | set_solver | by right; right; left; right | ].
      apply elem_of_cons in Hx1 as [->|?]; [set_solver | by right; right; right].
    + apply elem_of_singleton in Hx as ->. right; right; left. by left.
  - intros b' a' Hin. by apply elem_of_nil in Hin.
  - intros q' Hq'. destruct (Hhop q' ltac:(by right)) as [Hqex Hqfs].
    destruct (Htmps q' ltac:(by right)) as (_ & Hq2 & _ & Hkq).
    assert (q_tmp q' ≠ t).
    { intros E. apply HtQ. rewrite <- E. apply list_elem_of_fmap. by exists q'. }
    assert (q_tmp q' ≠ a) by by intros E; rewrite E in Hq2.
    split; [set_solver|].
    rewrite Hfr; done.
  - intros b' a' Hin. apply elem_of_cons in Hin as [[= -> ->]|Hin].
    + by rewrite Hwa.
    + assert (Ha'D : a' ∈ D.*2) by (eapply pair_in_snd, HinDn, Hin).
      rewrite Hfr; [by eapply Hdone | by apply known_dst | |].
      * by intros ->.
      * apply HDn2. by eapply pair_in_snd.
  - intros x Hx. destruct (Hfixed x Hx) as [Hx1 Hx2].
    rewrite Hfr; [by apply Hfix | by apply known_fixed | |].
    + by intros ->.
    + by intros ->.
  - intros b' a' _ Hmem. by apply elem_of_nil in Hmem.
  - intros x Hx Hxe.
    assert (Hxt : x ≠ t) by (intros ->; by destruct Hx).
    assert (Hxa : x ≠ a) by set_solver.
    rewrite Hfr; [| destruct Hx; [by apply known_src | by apply known_dst] | done | done].
    apply Hfree; [done|]. set_solver.
  - rewrite length_app. simpl. lia.
Qed.

(** The loop runs to completion from any state of the invariant, within
    two iterations per untouched pair and one per deferred pair. *)
Lemma loop_runs (fuel : nat) : ∀ (s : loop_state W) Dn R Q,
  loop_inv H content dir D F w0 n0 r0 s Dn R Q →
  2 * length R + length Q < fuel →
  ∃ s' Dn', rename_loop H dir fuel s = Some (Returned, s')
    ∧ loop_inv H content dir D F w0 n0 r0 s' Dn' [] [].
Proof.
  induction fuel as [|fuel IH]; intros s Dn R Q I Hfuel; [lia|].
  destruct R as [|[b a] R].
  - destruct Q as [|q Q].
    + exists s, Dn. split; [|done]. simpl. unfold loop_step.
      by rewrite (inv_queue _ _ _ _ _ _ _ _ _ _ _ _ I).
    + destruct (step_deferred _ _ _ _ I) as (s' & Hstep & I' & _).
      destruct (IH s' _ _ _ I') as (s'' & Dn'' & Hrun & I''); [simpl in *; lia|].
      exists s'', Dn''. split; [|done]. simpl. by rewrite Hstep.
  - destruct (decide (a ∈ existing s)) as [Ha|Ha].
    + destruct (step_hop _ _ _ _ _ _ I Ha) as (s' & t & Hstep & I').
      destruct (IH s' _ _ _ I') as (s'' & Dn'' & Hrun & I'').
      { rewrite length_app. simpl in *. lia. }
      exists s'', Dn''. split; [|done]. simpl. by rewrite Hstep.
    + destruct (step_direct _ _ _ _ _ _ I Ha) as (s' & Hstep & I' & _).
      destruct (IH s' _ _ _ I') as (s'' & Dn'' & Hrun & I''); [simpl in *; lia|].
      exists s'', Dn''. split; [|done]. simpl. by rewrite Hstep.
Qed.

(** From the start of the loop: every changed file ends under its new
    name, the unchanged ones stay, the names given up are free, and at
    most one temporary name is drawn per changed line. *)
Lemma loop_resolves (fuel : nat) (ex0 : gset string) (log : list (string * string)) :
  (∀ x, x ∈ ex0 → x ∈ F ∨ x ∈ D.*1) →
  (∀ b, b ∈ D.*1 → b ∈ ex0) →
  (∀ a, a ∈ D.*2 → a ∉ ex0 → content w0 (join dir a) = None) →
  length log = r0 →
  2 * length D < fuel →
  ∃ s', rename_loop H dir fuel (mkLoop D ex0 w0 n0 log)
          = Some (Returned, s')
    ∧ (∀ b a, (b, a) ∈ D →
         content (world s') (join dir a) = content w0 (join dir b))
    ∧ (∀ f, f ∈ F → content (world s') (join dir f) = content w0 (join dir f))
    ∧ (∀ b, b ∈ D.*1 → b ∉ D.*2 → content (world s') (join dir b) = None)
    ∧ n0 ≤ tmp_next s' ≤ n0 + length D
    ∧ length (renames s') = r0 + length D + (tmp_next s' - n0).
Proof.
  intros Hex0 Hin0 Hfree0 Hlog Hfuel.
  assert (I0 : loop_inv H content dir D F w0 n0 r0 (mkLoop D ex0 w0 n0 log) [] D []).
  { split; simpl.
    - done.
    - by rewrite app_nil_r.
    - lia.
    - lia.
    - intros q Hq. by apply elem_of_nil in Hq.
    - constructor.
    - intros x Hx. destruct (Hex0 x Hx); [by left | by right; left].
    - intros b a Hba. split; [|done]. apply Hin0. by eapply pair_in_fst.
    - intros q Hq. by apply elem_of_nil in Hq.
    - intros b a Hba. by apply elem_of_nil in Hba.
    - done.
    - intros b a Hba. by apply elem_of_nil in Hba.
    - intros x [Hx|Hx] Hxe; [by apply Hin0 in Hx | by apply Hfree0].
    - lia. }
  destruct (loop_runs fuel _ _ _ _ I0) as (s' & Dn' & Hrun & I'); [simpl; lia|].
  exists s'. split; [done|].
  destruct I' as [Hp Hq Hbud Hn0 Htm Htnd Hex Hraw Hhop Hdone Hfix Hclr Hfree Hlog'].
  simpl in Hp. rewrite app_nil_r in Hp.
  repeat split.
  - intros b a Hba. apply Hdone. by rewrite <- Hp.
  - done.
  - intros b Hb1 Hb2. apply Hfree; [by left|].
    intros Hbe. destruct (Hex b Hbe) as [HbF|[HbR|[HbDn|HbQ]]].
    + by destruct (Hfixed b HbF).
    + by apply elem_of_nil in HbR.
    + apply Hb2. by rewrite Hp.
    + by apply elem_of_nil in HbQ.
  - done.
  - simpl in Hbud. lia.
  - rewrite Hlog'. by rewrite Hp.
Qed.
End LoopInvariant.

(** ** Rename commit: from the lines to the change list *)

Section ChangeList.
Context (before after : list string).
Hypothesis Hlen : length after = length before.

Lemma diffs_sources_sublist : (compute_diffs before after).*1 `sublist_of` before.
Proof.
  unfold compute_diffs.
  assert (E : (zip before after).*1 = before) by (apply fst_zip; lia).
  rewrite <- E at 2. apply fmap_sublist, sublist_filter.
Qed.

Lemma diffs_targets_sublist : (compute_diffs before after).*2 `sublist_of` after.
Proof.
  unfold compute_diffs.
  assert (E : (zip before after).*2 = after) by (apply snd_zip; lia).
  rewrite <- E at 2. apply fmap_sublist, sublist_filter.
Qed.

Lemma diffs_lookup (b a : string) :
  (b, a) ∈ compute_diffs before after
  ↔ b ≠ a ∧ ∃ i, before !! i = Some b ∧ after !! i = Some a.
Proof.
  unfold compute_diffs. rewrite list_elem_of_filter, list_elem_of_lookup. simpl.
  split; intros [Hne [i Hi]]; (split; [done|]); exists i; by apply lookup_zip_Some.
Qed.

Lemma fixed_lookup (f : string) :
  f ∈ fixed_names before after
  ↔ ∃ i, before !! i = Some f ∧ after !! i = Some f.
Proof.
  unfold fixed_names. rewrite list_elem_of_fmap. split.
  - intros ([b a] & -> & Hin). apply list_elem_of_filter in Hin as [E Hin].
    simpl in *. subst. apply list_elem_of_lookup in Hin as [i Hi].
    exists i. by apply lookup_zip_Some.
  - intros (i & Hb & Ha). exists (f, f). split; [done|].
    apply list_elem_of_filter. split; [done|].
    apply list_elem_of_lookup. exists i. by apply lookup_zip_Some.
Qed.

Lemma line_cases (i : nat) (b a : string) :
  before !! i = Some b → after !! i = Some a →
  (b, a) ∈ compute_diffs before after ∨ (b = a ∧ b ∈ fixed_names before after).
Proof.
  intros Hb Ha. destruct (decide (b = a)) as [->|Hne].
  - right. split; [done|]. apply fixed_lookup. by exists i.
  - left. apply diffs_lookup. split; [done|]. by exists i.
Qed.

Lemma before_cases (x : string) :
  x ∈ before →
  x ∈ fixed_names before after ∨ x ∈ (compute_diffs before after).*1.
Proof.
  intros Hx. apply list_elem_of_lookup in Hx as [i Hi].
  destruct (lookup_lt_is_Some_2 after i) as [a Ha].
  { rewrite Hlen. by eapply lookup_lt_Some. }
  destruct (line_cases i x a Hi Ha) as [Hd|[_ Hf]]; [right | by left].
  apply list_elem_of_fmap. by exists (x, a).
Qed.

Lemma fixed_not_changed (f : string) :
  NoDup before → NoDup after →
  f ∈ fixed_names before after →
  (f ∉ (compute_diffs before after).*1) ∧ (f ∉ (compute_diffs before after).*2).
Proof.
  intros Hnb Hna Hf. apply fixed_lookup in Hf as (i & Hbi & Hai).
  split; intros Hin; apply list_elem_of_fmap in Hin as ([b a] & E & Hin);
    simpl in E; subst; apply diffs_lookup in Hin as (Hne & j & Hbj & Haj).
  - pose proof (proj1 (NoDup_alt _) Hnb _ _ _ Hbi Hbj). subst. congruence.
  - pose proof (proj1 (NoDup_alt _) Hna _ _ _ Hai Haj). subst. congruence.
Qed.
End ChangeList.

(** ** Rename commit: cycles and chains *)

Lemma NoDup_fmap_inj_on {A B : Type} (f : A → B) (l : list A) (x y : A) :
  NoDup (f <$> l) → x ∈ l → y ∈ l → f x = f y → x = y.
Proof.
  intros Hnd Hx Hy E.
  apply list_elem_of_lookup in Hx as [i Hi]. apply list_elem_of_lookup in Hy as [j Hj].
  assert (i = j).
  { eapply (proj1 (NoDup_alt (f <$> l)) Hnd i j (f x)).
    - by rewrite list_lookup_fmap, Hi.
    - by rewrite list_lookup_fmap, Hj, E. }
  subst. congruence.
Qed.

Lemma finish_commit_effect {W : Type} (v : View) (m : machine W) :
  res_world (finish_commit v m) = m
  ∧ errors (res_view (finish_commit v m)) = errors v
  ∧ rename (res_view (finish_commit v m)) = None
  ∧ dired_rename_mode (res_view (finish_commit v m)) = false
  ∧ res_out (finish_commit v m)
    = match selected v with [] => Raised IndexError | _ :: _ => Returned end.
Proof. unfold finish_commit. simpl. by destruct (selected v). Qed.

Section CommitResolution.
Context {W V : Type} (H : RenameHost W) (content : W → string → option V).
Context (remove_ui : string → string).

Lemma commit_resolves (fuel : nat) (v : View) (m : machine W)
    (before : list string) :
  rename v = Some before →
  length (edited_names remove_ui v) = length before →
  NoDup before →
  NoDup (edited_names remove_ui v) →
  moves_entries H content (path v)
    (commit_name H (path v) (before ++ edited_names remove_ui v)) →
  draws_fresh H content (path v) (before ++ edited_names remove_ui v) →
  Forall (λ b, is_Some (content (m_world m) (join (path v) b))) before →
  Forall (λ a, a ∈ before ∨ content (m_world m) (join (path v) a) = None)
    (edited_names remove_ui v) →
  2 * length (compute_diffs before (edited_names remove_ui v)) < fuel →
  ∃ r, rename_commit H remove_ui fuel v m = Some r
    ∧ errors (res_view r) = errors v
    ∧ rename (res_view r) = None
    ∧ dired_rename_mode (res_view r) = false
    ∧ res_out r = match selected v with
                  | [] => Raised IndexError
                  | _ :: _ => Returned
                  end
    ∧ (∀ i b a, before !! i = Some b →
         edited_names remove_ui v !! i = Some a →
         content (m_world (res_world r)) (join (path v) a)
           = content (m_world m) (join (path v) b))
    ∧ (∀ b, b ∈ before → b ∉ edited_names remove_ui v →
         content (m_world (res_world r)) (join (path v) b) = None)
    ∧ m_tmp m ≤ m_tmp (res_world r)
        ≤ m_tmp m + length (compute_diffs before (edited_names remove_ui v))
    ∧ length (m_renames (res_world r))
        = length (m_renames m)
          + length (compute_diffs before (edited_names remove_ui v))
          + (m_tmp (res_world r) - m_tmp m).
Proof.
  set (after := edited_names remove_ui v).
  set (Fx := fixed_names before after).
  intros Hbase Hlen Hnb Hna Hmv Hdr Hfiles Hnew Hfuel.
  assert (HFa : ∀ x, x ∈ Fx → x ∈ before ∧ x ∈ after).
  { intros x Hx. apply (fixed_lookup before after) in Hx as (i & Hi & Hj).
    split; apply list_elem_of_lookup; by exists i. }
  assert (Hgone0 : ∀ b, b ∈ before → b ∉ after →
            b ∈ (compute_diffs before after).*1).
  { intros b Hb Hba. destruct (before_cases before after Hlen b Hb) as [HF|?];
      [|done]. by destruct (HFa b HF). }
  unfold rename_commit. rewrite Hbase. fold after.
  destruct (decide (length after ≠ length before)); [done|].
  destruct (decide (size (list_to_set after : gset string) ≠ length after)) as [Hsz|_].
  { exfalso. by apply Hsz, size_list_to_set_NoDup. }
  destruct (compute_diffs before after) as [|d ds] eqn:HD.
  { destruct (finish_commit_effect v m) as (Hw & He & Hr & Hm & Ho).
    eexists. split; [reflexivity|]. rewrite Hw.
    repeat split; try done; simpl; try lia.
    - intros i b a Hb Ha.
      destruct (line_cases before after i b a Hb Ha) as [Hin|[-> _]]; [|done].
      rewrite HD in Hin. by apply elem_of_nil in Hin.
    - intros b Hb Hba. by apply Hgone0, elem_of_nil in Hb. }
  set (D := compute_diffs before after) in *.
  assert (Hsub1 : ∀ x, x ∈ D.*1 → x ∈ before).
  { intros x Hx. eapply elem_of_sublist; [exact Hx|]. by apply diffs_sources_sublist. }
  assert (Hsub2 : ∀ x, x ∈ D.*2 → x ∈ after).
  { intros x Hx. eapply elem_of_sublist; [exact Hx|]. by apply diffs_targets_sublist. }
  assert (Hknown : ∀ x, known H (path v) D Fx x →
            commit_name H (path v) (before ++ after) x).
  { intros x [Hx|[Hx|[Hx|Hx]]]; [left; apply elem_of_app.. | by right].
    - left. by apply Hsub1.
    - right. by apply Hsub2.
    - left. by apply HFa. }
  destruct (loop_resolves H content (path v) D Fx (m_world m) (m_tmp m)
              (length (m_renames m))) with (fuel := fuel)
      (ex0 := (list_to_set before : gset string)) (log := m_renames m)
    as (s' & Hrun & Hmoved & Hkept & Hgone & Htmp & Hlog).
  - eapply sublist_NoDup; [exact Hnb | by apply diffs_sources_sublist].
  - eapply sublist_NoDup; [exact Hna | by apply diffs_targets_sublist].
  - intros f Hf. by apply fixed_not_changed.
  - intros t Ht. pose proof (drawn_apart _ _ _ _ Hdr t Ht) as Hno.
    repeat split; intros Hin; apply Hno, elem_of_app.
    + left. by apply Hsub1.
    + right. by apply Hsub2.
    + left. by apply HFa.
  - intros b Hb. apply Hsub1 in Hb. by eapply (proj1 (Forall_forall _ _) Hfiles).
  - intros w. destruct (draw_unlinked _ _ _ _ Hdr w)
      as (t & w1 & w2 & Hntf & Hunl & Hnone & Hfr).
    exists t, w1, w2. repeat split; try done.
    intros x Hx. by apply Hfr, Hknown.
  - by eapply moves_entries_weaken.
  - intros x Hx. apply elem_of_list_to_set in Hx. by apply before_cases.
  - intros b Hb. apply elem_of_list_to_set. by apply Hsub1.
  - intros a Ha Hae. rewrite elem_of_list_to_set in Hae.
    by destruct (proj1 (Forall_forall _ _) Hnew a (Hsub2 a Ha)).
  - done.
  - by rewrite HD.
  - rewrite HD in Hrun, Hmoved, Hgone, Htmp, Hlog. rewrite Hrun.
    destruct (finish_commit_effect v (mkMachine (world s') (tmp_next s') (renames s')))
      as (Hw & He & Hr & Hm & Ho).
    eexists. split; [reflexivity|]. rewrite Hw. simpl. simpl in Htmp, Hlog.
    repeat split; try done; try lia.
    + intros i b a Hb Ha.
      destruct (line_cases before after i b a Hb Ha) as [Hin|[-> Hin]].
      * apply Hmoved. by rewrite <- HD.
      * by apply Hkept.
    + intros b Hb Hba. apply Hgone.
      * rewrite ?HD. by apply Hgone0.
      * intros Hin. apply Hba, Hsub2. by rewrite ?HD.
Qed.
End CommitResolution.

(** ** Rename commit: the swap *)

Section Swap.
Context {W V : Type} (H : RenameHost W) (content : W → string → option V).
Context (remove_ui : string → string).

Lemma commit_swaps (fuel : nat) (v : View) (m : machine W)
    (a b : string) (fa fb : V) :
  rename v = Some [a; b] →
  edited_names remove_ui v = [b; a] →
  a ≠ b →
  moves_entries H content (path v) (commit_name H (path v) [a; b]) →
  draws_fresh H content (path v) [a; b] →
  content (m_world m) (join (path v) a) = Some fa →
  content (m_world m) (join (path v) b) = Some fb →
  4 ≤ fuel →
  ∃ r t, rename_commit H remove_ui fuel v m = Some r
    ∧ drawn H (path v) t
    ∧ content (m_world (res_world r)) (join (path v) a) = Some fb
    ∧ content (m_world (res_world r)) (join (path v) b) = Some fa
    ∧ (∀ z, commit_name H (path v) [a; b] z → z ≠ a → z ≠ b →
         content (m_world (res_world r)) (join (path v) z)
           = content (m_world m) (join (path v) z))
    ∧ m_renames (res_world r) = m_renames m ++ [(a, t); (b, a); (t, b)]
    ∧ m_tmp (res_world r) = S (m_tmp m)
    ∧ errors (res_view r) = errors v
    ∧ rename (res_view r) = None
    ∧ dired_rename_mode (res_view r) = false
    ∧ res_out r = match selected v with
                  | [] => Raised IndexError
                  | _ :: _ => Returned
                  end.
Proof.
  intros Hbase Hafter Hab Hmv Hdr Hfa Hfb Hfuel.
  set (dir := path v) in *. set (K := commit_name H dir [a; b]) in *.
  assert (Ka : K a) by (left; set_solver).
  assert (Kb : K b) by (left; set_solver).
  destruct (draw_unlinked _ _ _ _ Hdr (m_world m))
    as (t & w1 & w2 & Hntf & Hunl & Htnone & Hfr0).
  assert (Hdt : drawn H dir t) by (by exists (m_world m), w1).
  assert (Kt : K t) by by right.
  pose proof (drawn_apart _ _ _ _ Hdr t Hdt) as Htn.
  assert (Hta : t ≠ a) by set_solver.
  assert (Htb : t ≠ b) by set_solver.
  (* a goes to the temporary name *)
  destruct (moves_by_name H content dir K w2 a t fa Hmv Ka Kt)
    as (w3 & Hren3 & Ht3 & Ha3 & Hfr3).
  { by rewrite Hfr0. }
  { by rewrite Hfr0. }
  (* b goes to a *)
  destruct (moves_by_name H content dir K w3 b a fb Hmv Kb Ka)
    as (w4 & Hren4 & Ha4 & Hb4 & Hfr4).
  { rewrite Hfr3, Hfr0; done. }
  { done. }
  (* the temporary name goes to b *)
  destruct (moves_by_name H content dir K w4 t b fa Hmv Kt Kb)
    as (w5 & Hren5 & Hb5 & Ht5 & Hfr5).
  { rewrite Hfr4; done. }
  { done. }
  unfold rename_commit. rewrite Hbase, Hafter.
  destruct (decide (length [b; a] ≠ length [a; b])); [done|].
  destruct (decide (size (list_to_set [b; a] : gset string) ≠ length [b; a])) as [Hsz|_].
  { exfalso. apply Hsz, size_list_to_set_NoDup.
    repeat constructor; set_solver. }
  assert (HD : compute_diffs [a; b] [b; a] = [(a, b); (b, a)]).
  { unfold compute_diffs. simpl. rewrite !filter_cons. simpl.
    destruct (decide (a ≠ b)); [|done]. by destruct (decide (b ≠ a)). }
  rewrite HD.
  destruct fuel as [|[|[|[|fuel]]]]; try lia.
  cbn [rename_loop].
  erewrite (loop_step_hop H dir _ a b [(b, a)] t w1 w2 w3);
    [| done | cbn [existing]; set_solver.. | done | done | done].
  cbn [rename_loop tmp_next existing world diffs renames].
  erewrite (loop_step_direct H dir _ b a [(t, b)] w4);
    [| done | cbn [existing]; set_solver.. | done].
  cbn [rename_loop tmp_next existing world diffs renames].
  erewrite (loop_step_direct H dir _ t b [] w5);
    [| done | cbn [existing]; set_solver.. | done].
  cbn [rename_loop tmp_next existing world diffs renames loop_step].
  match goal with |- context [finish_commit v ?mm] =>
    destruct (finish_commit_effect v mm) as (Hw & He & Hr & Hm & Ho) end.
  eexists _, t. split; [reflexivity|]. rewrite Hw. cbn [m_world m_renames m_tmp].
  repeat split; try done.
  - rewrite Hfr5 by done. done.
  - intros z Hz Hza Hzb. destruct (decide (z = t)) as [->|Hzt].
    + rewrite Ht5. symmetry. done.
    + rewrite Hfr5, Hfr4, Hfr3 by done. by apply Hfr0.
  - by rewrite <- !(assoc_L (++)).
Qed.
End Swap.

(** C1. Committing the swap of two names [a] and [b] terminates (four
    loop iterations suffice), reports no error, and leaves the file that
    was [a] under [b] and the file that was [b] under [a], through the
    three renames [a → t], [b → a], [t → b] with [t] the one temporary
    name drawn; every other name, [t] included, leads where it led
    before, so a directory holding just [a] and [b] holds just [a] and
    [b] afterwards.  More generally, for every duplicate-free edit of a
    duplicate-free baseline (every permutation, with any cycles, in
    particular) the commit terminates within two iterations per changed
    line, reports no error, leaves on every line the file of the
    baseline name under the edited name and nothing under a name that
    was given up, and draws at most one temporary name per changed
    line, with one extra rename each.  The host is assumed to rename
    entries as a directory does ([moves_entries]: among the names of the
    commit distinct names are distinct paths, and [os.rename] from a
    path with a file to a path without one moves the file and nothing
    else) and to hand out temporary names that are new
    ([draws_fresh]); the new names of the edit are assumed to be free
    in the directory. *)
Theorem rename_commit_resolves_cycles {W V : Type} (H : RenameHost W)
    (content : W → string → option V) (remove_ui : string → string) :
  (∀ (fuel : nat) (v : View) (m : machine W) (a b : string) (fa fb : V),
     rename v = Some [a; b] →
     edited_names remove_ui v = [b; a] →
     a ≠ b →
     moves_entries H content (path v) (commit_name H (path v) [a; b]) →
     draws_fresh H content (path v) [a; b] →
     content (m_world m) (join (path v) a) = Some fa →
     content (m_world m) (join (path v) b) = Some fb →
     4 ≤ fuel →
     ∃ r t, rename_commit H remove_ui fuel v m = Some r
       ∧ drawn H (path v) t
       ∧ content (m_world (res_world r)) (join (path v) a) = Some fb
       ∧ content (m_world (res_world r)) (join (path v) b) = Some fa
       ∧ (∀ z, commit_name H (path v) [a; b] z → z ≠ a → z ≠ b →
            content (m_world (res_world r)) (join (path v) z)
              = content (m_world m) (join (path v) z))
       ∧ m_renames (res_world r) = m_renames m ++ [(a, t); (b, a); (t, b)]
       ∧ m_tmp (res_world r) = S (m_tmp m)
       ∧ errors (res_view r) = errors v
       ∧ rename (res_view r) = None
       ∧ dired_rename_mode (res_view r) = false
       ∧ res_out r = match selected v with
                     | [] => Raised IndexError
                     | _ :: _ => Returned
                     end)
  ∧ (∀ (fuel : nat) (v : View) (m : machine W) (before : list string),
     rename v = Some before →
     length (edited_names remove_ui v) = length before →
     NoDup before →
     NoDup (edited_names remove_ui v) →
     moves_entries H content (path v)
       (commit_name H (path v) (before ++ edited_names remove_ui v)) →
     draws_fresh H content (path v) (before ++ edited_names remove_ui v) →
     Forall (λ b, is_Some (content (m_world m) (join (path v) b))) before →
     Forall (λ a, a ∈ before ∨ content (m_world m) (join (path v) a) = None)
       (edited_names remove_ui v) →
     2 * length (compute_diffs before (edited_names remove_ui v)) < fuel →
     ∃ r, rename_commit H remove_ui fuel v m = Some r
       ∧ errors (res_view r) = errors v
       ∧ rename (res_view r) = None
       ∧ dired_rename_mode (res_view r) = false
       ∧ res_out r = match selected v with
                     | [] => Raised IndexError
                     | _ :: _ => Returned
                     end
       ∧ (∀ i b a, before !! i = Some b →
            edited_names remove_ui v !! i = Some a →
            content (m_world (res_world r)) (join (path v) a)
              = content (m_world m) (join (path v) b))
       ∧ (∀ b, b ∈ before → b ∉ edited_names remove_ui v →
            content (m_world (res_world r)) (join (path v) b) = None)
       ∧ m_tmp m ≤ m_tmp (res_world r)
           ≤ m_tmp m + length (compute_diffs before (edited_names remove_ui v))
       ∧ length (m_renames (res_world r))
           = length (m_renames m)
             + length (compute_diffs before (edited_names remove_ui v))
             + (m_tmp (res_world r) - m_tmp m)).
Proof.
  split.
  - intros fuel v m a b fa fb. apply commit_swaps.
  - intros fuel v m before. apply commit_resolves.
Qed.
(* ===================================================================== *)
(** * Part III. Further properties of the commands                        *)
(* ===================================================================== *)

(** ** Lines and lengths *)

Lemma app_inj_r (s1 s2 : string) (c : ascii) :
  s1 +:+ String c "" = s2 +:+ String c "" → s1 = s2.
Proof.
  revert s2. induction s1 as [|a s1 IH]; intros [|b s2] E; try done.
  - rewrite app_empty_l, app_cons in E. injection E as _ E.
    destruct s2; discriminate E.
  - rewrite app_empty_l, app_cons in E. injection E as _ E.
    destruct s1; discriminate E.
  - rewrite !app_cons in E. injection E as -> E. f_equal. by apply IH.
Qed.

Lemma dir_line_inj (x y : string) : dir_line x = dir_line y → x = y.
Proof.
  unfold dir_line. intros E. apply String.app_inj in E.
  by apply app_inj_r in E.
Qed.

Lemma file_line_inj (x y : string) : file_line x = file_line y → x = y.
Proof. unfold file_line. apply String.app_inj. Qed.

Lemma dir_line_not_file_line (x y : string) : dir_line x ≠ file_line y.
Proof. unfold dir_line, file_line. intros E. discriminate E. Qed.

Lemma py_len_app (s t : string) : py_len (s +:+ t) = py_len s + py_len t.
Proof.
  induction s as [|c s IH]; [done|]. rewrite app_cons. simpl. rewrite IH. lia.
Qed.

Lemma py_len_repeat (n : nat) (s : string) :
  py_len (str_repeat n s) = n * py_len s.
Proof.
  induction n as [|n IH]; [done|]. simpl. rewrite py_len_app, IH. lia.
Qed.

(** ** The rendered listing *)

Lemma list_index_Some (x : string) (l : list string) (i : nat) :
  list_index x l = Some i →
  l !! i = Some x ∧ ∀ j, j < i → l !! j ≠ Some x.
Proof.
  revert i. induction l as [|y l IH]; intros i Hi; [done|]. simpl in Hi.
  destruct (decide (y = x)) as [->|Hne].
  - injection Hi as <-. split; [done|]. intros j Hj. lia.
  - destruct (list_index x l) as [k|] eqn:Hk; [|done]. injection Hi as <-.
    destruct (IH k eq_refl) as [Hl Hfirst]. split; [done|].
    intros [|j] Hj; simpl; [congruence|]. apply Hfirst. lia.
Qed.

Lemma list_index_None (x : string) (l : list string) :
  list_index x l = None ↔ x ∉ l.
Proof.
  induction l as [|y l IH]; simpl.
  - split; [intros _; apply not_elem_of_nil | done].
  - destruct (decide (y = x)) as [->|Hne].
    + split; [done|]. intros Hn. exfalso. apply Hn. left.
    + rewrite not_elem_of_cons. destruct (list_index x l); simpl.
      * split; [done|]. intros [_ Hn]. by apply IH in Hn.
      * split; [|done]. intros _. split; [congruence|]. by apply IH.
Qed.

Lemma elem_of_entry_lines (isdir : string → bool) (dir line : string)
    (names : list string) :
  line ∈ entry_lines isdir dir names
  ↔ ∃ name, name ∈ names
      ∧ line = if isdir (join dir name) then dir_line name else file_line name.
Proof.
  unfold entry_lines. rewrite elem_of_app, !list_elem_of_fmap. split.
  - intros [(n & -> & Hn)|(n & -> & Hn)]; apply list_elem_of_filter in Hn as [Hd Hn];
      exists n; (split; [done|]).
    + by rewrite Hd.
    + by destruct (isdir (join dir n)).
  - intros (n & Hn & ->). destruct (isdir (join dir n)) eqn:Hd.
    + left. exists n. split; [done|]. by apply list_elem_of_filter.
    + right. exists n. split; [done|]. apply list_elem_of_filter. split; [|done].
      congruence.
Qed.

(** X1. With a [goto] naming a child, the refresh puts the cursor on
    column 2 of the first text row that shows that child. *)
Theorem refresh_goto_lands_on_entry (isdir : string → bool) (dir name : string)
    (names : list string) :
  name ∈ names →
  name ≠ "" →
  endswith name os_sep = false →
  ∃ row,
    refresh_cursor isdir dir names (Some name) = TextPoint row 2
    ∧ 3 ≤ row
    ∧ listing_text isdir dir names !! row
      = Some (if isdir (join dir name) then dir_line name else file_line name)
    ∧ ∀ r, 3 ≤ r < row →
        listing_text isdir dir names !! r
        ≠ Some (if isdir (join dir name) then dir_line name else file_line name).
Proof.
  intros Hin Hne Hsep.
  set (line := if isdir (join dir name) then dir_line name else file_line name).
  assert (Hline : line ∈ entry_lines isdir dir names).
  { apply elem_of_entry_lines. by exists name. }
  unfold refresh_cursor. rewrite Hsep. simpl negb. rewrite andb_true_r.
  fold (dir_line name) (file_line name). fold line.
  destruct (entry_lines isdir dir names) as [|l0 ls] eqn:Hf.
  { by apply elem_of_nil in Hline. }
  destruct (decide (name = "")); [done|].
  destruct (list_index line (l0 :: ls)) as [i|] eqn:Hi.
  - destruct (list_index_Some _ _ _ Hi) as [Hl Hfirst].
    exists (i + 3). split; [done|]. split; [lia|].
    unfold listing_text. rewrite Hf. split.
    + replace (i + 3) with (3 + i) by lia. exact Hl.
    + intros r Hr. destruct r as [|[|[|r]]]; try lia. simpl. apply Hfirst. lia.
  - apply list_index_None in Hi. done.
Qed.

(** X2. In an empty directory the cursor goes to row 2 (the parent
    link) whatever the [goto]; and a [goto] that ends in the path
    separator is never found among the lines of a listing (no child name
    ends in the separator), so the cursor stays at the start of the file
    region. *)
Theorem refresh_goto_defaults (isdir : string → bool) (dir : string)
    (names : list string) (goto : option string) (g : string) :
  (names = [] →
     refresh_cursor isdir dir names goto = TextPoint 2 0
     ∧ listing_text isdir dir names !! 2 = Some "⠤"
     ∧ length (listing_text isdir dir names) = 3)
  ∧ (names ≠ [] →
     Forall (λ name, endswith name os_sep = false) names →
     endswith g os_sep = true →
     refresh_cursor isdir dir names (Some g) = FileRegionStart).
Proof.
  split.
  - intros ->. done.
  - intros Hne Hnames Hg. unfold refresh_cursor.
    destruct (entry_lines isdir dir names) as [|l0 ls] eqn:Hf.
    { pose proof (entry_lines_length isdir dir names) as Hl. rewrite Hf in Hl.
      destruct names; [done | discriminate Hl]. }
    destruct (decide (g = "")); [done|].
    rewrite Hg. simpl negb. rewrite andb_false_r.
    fold (file_line g).
    destruct (list_index (file_line g) (l0 :: ls)) as [i|] eqn:Hi; [|done].
    exfalso. apply list_index_Some in Hi as [Hi _].
    assert (Hin : file_line g ∈ entry_lines isdir dir names).
    { rewrite Hf. apply list_elem_of_lookup. by exists i. }
    apply elem_of_entry_lines in Hin as (name & Hname & E).
    destruct (isdir (join dir name)).
    + symmetry in E. by apply dir_line_not_file_line in E.
    + apply file_line_inj in E. subst name.
      apply (proj1 (Forall_forall _ _) Hnames) in Hname. congruence.
Qed.

(** X3. Children with distinct names get distinct lines: the entry
    lines of a duplicate-free enumeration are duplicate-free. *)
Theorem entry_lines_NoDup (isdir : string → bool) (dir : string)
    (names : list string) :
  NoDup names → NoDup (entry_lines isdir dir names).
Proof.
  intros Hnd. unfold entry_lines. apply NoDup_app. repeat split.
  - apply NoDup_fmap_2; [intros x y; apply dir_line_inj|].
    by apply NoDup_filter.
  - intros line Hd Hf. apply list_elem_of_fmap in Hd as (d & -> & _).
    apply list_elem_of_fmap in Hf as (f & E & _).
    by apply dir_line_not_file_line in E.
  - apply NoDup_fmap_2; [intros x y; apply file_line_inj|].
    by apply NoDup_filter.
Qed.

(** X4. The second line of the text is a rule of em dashes with as many
    characters as the path has. *)
Theorem listing_rule_length (isdir : string → bool) (dir : string)
    (names : list string) :
  ∃ rule, listing_text isdir dir names !! 1 = Some rule
    ∧ py_len rule = py_len dir
    ∧ listing_text isdir dir names !! 0 = Some dir
    ∧ length (listing_text isdir dir names) = 3 + length names.
Proof.
  eexists. split; [reflexivity|]. split.
  - rewrite py_len_repeat. change (py_len "—") with 1. lia.
  - split; [done|]. unfold listing_text. rewrite length_app, entry_lines_length.
    done.
Qed.

Lemma refresh_goto_lands_on_entry_witness :
  refresh_cursor (λ p, bool_decide (p = "/d/sub")) "/d" ["a.txt"; "sub"; "b"]
    (Some "a.txt") = TextPoint 4 2
  ∧ listing_text (λ p, bool_decide (p = "/d/sub")) "/d" ["a.txt"; "sub"; "b"] !! 4
    = Some "≡ a.txt".
Proof.
  destruct (refresh_goto_lands_on_entry (λ p, bool_decide (p = "/d/sub")) "/d"
              "a.txt" ["a.txt"; "sub"; "b"])
    as (row & Hc & _ & Ht & _);
    [ apply (bool_decide_unpack _); vm_compute; exact I
    | discriminate | reflexivity | ].
  assert (row = 4) as ->.
  { change (refresh_cursor (λ p, bool_decide (p = "/d/sub")) "/d"
              ["a.txt"; "sub"; "b"] (Some "a.txt")) with (TextPoint 4 2) in Hc.
    by injection Hc. }
  split; [exact Hc | exact Ht].
Defined.

Lemma entry_lines_NoDup_witness :
  NoDup (entry_lines (λ p, bool_decide (p = "/d/sub")) "/d" ["a.txt"; "sub"; "b"]).
Proof.
  apply entry_lines_NoDup. apply (bool_decide_unpack _). vm_compute. exact I.
Defined.

(** ** Delete and move: batches *)

Section Batches.
Context {W : Type} (H : Host W).

Lemma delete_each_app (dir : string) (l1 l2 : list string) (w : W) :
  delete_each H dir (l1 ++ l2) w
  = match delete_each H dir l1 w with
    | (Returned, w1) => delete_each H dir l2 w1
    | (Raised e, w1) => (Raised e, w1)
    end.
Proof.
  revert w. induction l1 as [|f l1 IH]; intros w; [done|]. simpl.
  destruct (if os_isdir H w (join dir f) then shutil_rmtree H (join dir f) w
            else os_remove H (join dir f) w); [apply IH | done].
Qed.

Lemma move_each_app (dir dest : string) (l1 l2 : list string) (w : W) :
  move_each H dir dest (l1 ++ l2) w
  = match move_each H dir dest l1 w with
    | (Returned, w1) => move_each H dir dest l2 w1
    | (Raised e, w1) => (Raised e, w1)
    end.
Proof.
  revert w. induction l1 as [|f l1 IH]; intros w; [done|]. simpl.
  destruct (decide (normpath H (normcase H (join dir f)) ≠ dest)); [|apply IH].
  destruct (shutil_move H (normpath H (normcase H (join dir f))) dest w);
    [apply IH | done].
Qed.

Lemma move_each_all_skipped (dir dest : string) (files : list string) (w : W) :
  Forall (λ filename, normalise H dir filename = dest) files →
  move_each H dir dest files w = (Returned, w).
Proof.
  induction 1 as [|f fs Hf _ IH]; [done|]. simpl.
  unfold normalise in Hf. rewrite Hf.
  by destruct (decide (dest ≠ dest)).
Qed.

(** X5. A delete is not rolled back: when the removal of one target
    fails after the targets before it were removed, the command raises
    with those removals in place, the later targets untouched, and the
    view not refreshed. *)
Theorem delete_fails_forward (v : View) (w w1 : W)
    (done_ rest : list string) (bad : string) :
  targets v = done_ ++ bad :: rest →
  ok_cancel_dialog H (delete_prompt (targets v)) = true →
  delete_each H (path v) done_ w = (Returned, w1) →
  delete_one H (join (path v) bad) w1 = None →
  delete_run H v w = mkResult (Raised OSError) v w1.
Proof.
  intros HT Hok Hdone Hbad. unfold delete_run, targets in *.
  destruct (py_or (marked v) (selected v)) as [|first others] eqn:Hfiles.
  { by destruct done_. }
  assert (Hmsg : match others with
                 | [] => "Delete " +:+ first +:+ "?"
                 | _ :: _ => "Delete " +:+ pretty (length (first :: others)) +:+ " items?"
                 end = delete_prompt (first :: others)).
  { by destruct others. }
  rewrite Hmsg, Hok, HT, delete_each_app, Hdone. simpl.
  unfold delete_one in Hbad. by rewrite Hbad.
Qed.

(** X6. Nothing is deleted without consent: the dialog is asked once,
    with the name of the single target or the number of targets, and a
    refusal (or an empty target list, for which nothing is asked) leaves
    the world and the view as they were; a consent to a batch that
    succeeds refreshes the view. *)
Theorem delete_needs_consent (v : View) (w : W) :
  (targets v = [] → delete_run H v w = mkResult Returned v w)
  ∧ (ok_cancel_dialog H (delete_prompt (targets v)) = false →
     delete_run H v w = mkResult Returned v w)
  ∧ (∀ w', targets v ≠ [] →
     ok_cancel_dialog H (delete_prompt (targets v)) = true →
     delete_each H (path v) (targets v) w = (Returned, w') →
     delete_run H v w
       = mkResult Returned (run_command "dired_refresh" None v) w').
Proof.
  unfold delete_run, targets.
  destruct (py_or (marked v) (selected v)) as [|first others] eqn:Hfiles.
  { repeat split; done. }
  assert (Hmsg : match others with
                 | [] => "Delete " +:+ first +:+ "?"
                 | _ :: _ => "Delete " +:+ pretty (length (first :: others)) +:+ " items?"
                 end = delete_prompt (first :: others)).
  { by destruct others. }
  rewrite Hmsg. repeat split.
  - done.
  - by intros ->.
  - intros w' _ -> Hall. by rewrite Hall.
Qed.

(** X7. Moving a directory into itself is harmless end to end: when the
    destination is an existing directory and every target normalises to
    it, no move is made, no error is shown, and the view is refreshed. *)
Theorem move_into_itself_is_noop (dst : string) (v : View) (w : W) :
  dst ≠ path v →
  os_isdir H w (resolved dst v) = true →
  Forall (λ filename,
            normalise H (path v) filename
            = normpath H (normcase H (resolved dst v))) (targets v) →
  move_to H dst v w
    = mkResult Returned (run_command "dired_refresh" None v) w.
Proof.
  intros Hne Hdir Hall. unfold move_to, resolved in *.
  destruct (decide (dst = path v)); [done|].
  assert (E : (if negb (isabs dst) then join (path v) dst else dst)
              = (if isabs dst then dst else join (path v) dst))
    by by destruct (isabs dst).
  rewrite E, Hdir. simpl.
  fold (targets v). by rewrite (move_each_all_skipped _ _ _ w Hall).
Qed.

(** X8. A move is not rolled back either: when the move primitive
    fails on one target, the targets before it stay moved, the later
    ones are not tried, and the command raises without a refresh. *)
Theorem move_fails_forward (dst : string) (v : View) (w w1 : W)
    (done_ rest : list string) (bad : string) :
  dst ≠ path v →
  os_isdir H w (resolved dst v) = true →
  targets v = done_ ++ bad :: rest →
  move_each H (path v) (normpath H (normcase H (resolved dst v))) done_ w
    = (Returned, w1) →
  normalise H (path v) bad ≠ normpath H (normcase H (resolved dst v)) →
  shutil_move H (normalise H (path v) bad)
    (normpath H (normcase H (resolved dst v))) w1 = None →
  move_to H dst v w = mkResult (Raised OSError) v w1.
Proof.
  intros Hne Hdir HT Hdone Hbad Hfail. unfold move_to, resolved in *.
  destruct (decide (dst = path v)); [done|].
  assert (E : (if negb (isabs dst) then join (path v) dst else dst)
              = (if isabs dst then dst else join (path v) dst))
    by by destruct (isabs dst).
  rewrite E, Hdir. simpl. fold (targets v).
  rewrite HT, move_each_app, Hdone. simpl. unfold normalise in Hbad, Hfail.
  destruct (decide (normpath H (normcase H (join (path v) bad))
                    ≠ normpath H (normcase H
                        (if isabs dst then dst else join (path v) dst))));
    [|done].
  by rewrite Hfail.
Qed.
End Batches.

Lemma delete_fails_forward_witness :
  delete_run mem_host batch_view sample_world
  = mkResult (Raised OSError) batch_view (delete "/d/a.txt" sample_world).
Proof.
  apply (delete_fails_forward mem_host batch_view sample_world
           (delete "/d/a.txt" sample_world) ["a.txt"] ["b.py"] "missing");
    reflexivity.
Defined.

Lemma move_into_itself_is_noop_witness :
  move_to mem_host "sub" self_view sample_world
  = mkResult Returned (run_command "dired_refresh" None self_view) sample_world.
Proof.
  apply (move_into_itself_is_noop mem_host "sub" self_view sample_world);
    [ discriminate | reflexivity | ].
  apply (bool_decide_unpack _). vm_compute. exact I.
Defined.

Lemma move_fails_forward_witness :
  move_to mem_host "sub" batch_view sample_world
  = mkResult (Raised OSError) batch_view
      (<[ "/d/sub/a.txt" := false ]> (delete "/d/a.txt" sample_world)).
Proof.
  apply (move_fails_forward mem_host "sub" batch_view sample_world
           (<[ "/d/sub/a.txt" := false ]> (delete "/d/a.txt" sample_world))
           ["a.txt"] ["b.py"] "missing");
    [ discriminate | reflexivity | reflexivity | reflexivity
    | vm_compute; discriminate | reflexivity ].
Defined.

(** ** Reversal, prefixes and suffixes *)

Lemma rev_app_append (s t acc : string) :
  String.rev_app (s +:+ t) acc = String.rev_app t (String.rev_app s acc).
Proof.
  revert acc. induction s as [|c s IH]; intros acc; [done|].
  rewrite app_cons. simpl. apply IH.
Qed.

Lemma rev_app_acc (s acc : string) :
  String.rev_app s acc = String.rev s +:+ acc.
Proof.
  unfold String.rev. revert acc. induction s as [|c s IH]; intros acc; [done|].
  simpl. rewrite (IH (String c acc)), (IH (String c "")).
  by rewrite app_assoc_str.
Qed.

Lemma rev_append (s t : string) :
  String.rev (s +:+ t) = String.rev t +:+ String.rev s.
Proof. unfold String.rev at 1. rewrite rev_app_append. apply rev_app_acc. Qed.

Lemma rev_cons (c : ascii) (s : string) :
  String.rev (String c s) = String.rev s +:+ String c "".
Proof. unfold String.rev at 1. simpl. apply rev_app_acc. Qed.

Lemma rev_snoc (c : ascii) (s : string) :
  String.rev (s +:+ String c "") = String c (String.rev s).
Proof. by rewrite rev_append. Qed.

Lemma rev_involutive (s : string) : String.rev (String.rev s) = s.
Proof.
  induction s as [|c s IH]; [done|]. by rewrite rev_cons, rev_snoc, IH.
Qed.

Lemma endswith_app (s t : string) : endswith (s +:+ t) t = true.
Proof. unfold endswith. rewrite rev_append. apply startswith_app. Qed.

Lemma endswith_sep_rev (s : string) :
  endswith s os_sep
  = match String.rev s with
    | String c _ => bool_decide (c = "/"%char)
    | EmptyString => false
    end.
Proof.
  unfold endswith. change (String.rev os_sep) with "/".
  destruct (String.rev s) as [|c r]; [done|]. simpl.
  destruct (decide ("/"%char = c)) as [<-|Hne].
  - by destruct r.
  - rewrite bool_decide_eq_false_2; [done | congruence].
Qed.

Lemma str_take_app (s t : string) : str_take (String.length s) (s +:+ t) = s.
Proof. induction s as [|c s IH]; [by destruct t|]. rewrite app_cons. simpl. by rewrite IH. Qed.

Lemma str_drop_app (s t : string) : str_drop (String.length s) (s +:+ t) = t.
Proof. induction s as [|c s IH]; [by destruct t|]. rewrite app_cons. simpl. by rewrite IH. Qed.

Lemma length_append (s t : string) :
  String.length (s +:+ t) = String.length s + String.length t.
Proof. induction s as [|c s IH]; [done|]. rewrite app_cons. simpl. by rewrite IH. Qed.

(** X11. The name handed to the refresh by rename-commit and
    rename-cancel is the selected name without one trailing separator:
    a name ending in the separator loses exactly that character, any
    other name is passed as it is. *)
Theorem goto_name_strips_one_separator (s : string) :
  goto_name (s +:+ os_sep) = s
  ∧ (endswith s os_sep = false → goto_name s = s)
  ∧ (endswith s os_sep = true → goto_name s +:+ os_sep = s).
Proof.
  assert (Hsnoc : goto_name (s +:+ os_sep) = s).
  { unfold goto_name. rewrite endswith_app. unfold drop_last.
    unfold os_sep. rewrite rev_snoc. apply rev_involutive. }
  split; [exact Hsnoc|]. split.
  - intros E. unfold goto_name. by rewrite E.
  - intros E. unfold goto_name. rewrite E. unfold drop_last.
    rewrite endswith_sep_rev in E.
    destruct (String.rev s) as [|c r] eqn:Hr; [done|].
    apply bool_decide_eq_true in E. subst c.
    rewrite <- (rev_involutive s), Hr, rev_cons. done.
Qed.

(** ** Searching from the right *)

Lemma rfind_from_no_match (s sub : string) (i : nat) (acc : option nat) :
  (∀ k, startswith (str_drop k s) sub = false) →
  rfind_from s sub i acc = acc.
Proof.
  revert i acc. induction s as [|c s IH]; intros i acc Hno;
    pose proof (Hno 0) as H0; simpl in H0; simpl; rewrite H0.
  - done.
  - apply IH. intros k. apply (Hno (S k)).
Qed.

Lemma rfind_from_last (pre rest sub : string) (i : nat) (acc : option nat) :
  startswith rest sub = true →
  (∀ k, startswith (str_drop (S k) rest) sub = false) →
  rfind_from (pre +:+ rest) sub i acc = Some (i + String.length pre).
Proof.
  intros Hhere Hlater. revert i acc.
  induction pre as [|c pre IH]; intros i acc.
  - rewrite app_empty_l. simpl String.length. rewrite Nat.add_0_r.
    destruct rest as [|c r]; simpl; simpl in Hhere; rewrite Hhere; [done|].
    apply rfind_from_no_match. intros k. apply (Hlater k).
  - rewrite app_cons. simpl. rewrite IH. f_equal. lia.
Qed.

Lemma rfind_last (pre rest sub : string) :
  startswith rest sub = true →
  (∀ k, startswith (str_drop (S k) rest) sub = false) →
  rfind (pre +:+ rest) sub = Some (String.length pre).
Proof. intros. unfold rfind. by rewrite rfind_from_last. Qed.

Lemma no_sep_no_match (name : string) (k : nat) :
  has_sep name = false → startswith (str_drop k name) os_sep = false.
Proof.
  revert k. induction name as [|c name IH]; intros k Hn.
  - by destruct k.
  - simpl in Hn. apply orb_false_iff in Hn as [Hc Hn].
    apply bool_decide_eq_false in Hc.
    destruct k as [|k]; simpl; [|by apply IH].
    destruct (decide ("/"%char = c)); [congruence | done].
Qed.

Lemma has_sep_app (s t : string) : has_sep (s +:+ t) = has_sep s || has_sep t.
Proof.
  induction s as [|c s IH]; [done|]. rewrite app_cons. simpl.
  by rewrite IH, orb_assoc.
Qed.

Lemma has_sep_rev (s : string) : has_sep (String.rev s) = has_sep s.
Proof.
  induction s as [|c s IH]; [done|]. rewrite rev_cons, has_sep_app, IH. simpl.
  rewrite orb_false_r. apply orb_comm.
Qed.

Lemma all_sep_app (s t : string) : all_sep (s +:+ t) = all_sep s && all_sep t.
Proof.
  induction s as [|c s IH]; [done|]. rewrite app_cons. simpl.
  by rewrite IH, andb_assoc.
Qed.

Lemma all_sep_rev (s : string) : all_sep (String.rev s) = all_sep s.
Proof.
  induction s as [|c s IH]; [done|]. rewrite rev_cons, all_sep_app, IH. simpl.
  rewrite andb_true_r. apply andb_comm.
Qed.

Lemma all_sep_repeat (n : nat) : all_sep (str_repeat n os_sep) = true.
Proof. induction n as [|n IH]; [done|]. simpl. by rewrite all_sep_app, IH. Qed.

Lemma rstrip_sep_snoc (s : string) : rstrip_sep (s +:+ os_sep) = rstrip_sep s.
Proof. unfold rstrip_sep, os_sep. rewrite rev_snoc. simpl. done. Qed.

Lemma rstrip_sep_all_sep (s sfx : string) :
  all_sep sfx = true → rstrip_sep (s +:+ sfx) = rstrip_sep s.
Proof.
  revert s. induction sfx as [|c sfx IH]; intros s Hs.
  - by rewrite app_empty_r.
  - simpl in Hs. apply andb_true_iff in Hs as [Hc Hs].
    apply bool_decide_eq_true in Hc. subst c.
    change (String "/" sfx) with (os_sep +:+ sfx).
    rewrite <- app_assoc_str, IH by done. apply rstrip_sep_snoc.
Qed.

Lemma rstrip_sep_id (s : string) (c : ascii) (r : string) :
  String.rev s = String c r → c ≠ "/"%char → rstrip_sep s = s.
Proof.
  intros Hr Hc. unfold rstrip_sep. rewrite Hr. simpl.
  destruct (decide (c = "/"%char)); [done|]. rewrite <- Hr. apply rev_involutive.
Qed.

Lemma rev_name_head (x name : string) :
  name ≠ "" → has_sep name = false →
  ∃ c r, String.rev (x +:+ name) = String c r ∧ c ≠ "/"%char.
Proof.
  intros Hne Hns. rewrite rev_append.
  destruct (String.rev name) as [|c r] eqn:Hr.
  - exfalso. apply Hne. rewrite <- (rev_involutive name). by rewrite Hr.
  - exists c, (r +:+ String.rev x). split; [done|].
    rewrite <- has_sep_rev, Hr in Hns. simpl in Hns.
    apply orb_false_iff in Hns as [Hc _]. by apply bool_decide_eq_false in Hc.
Qed.

(** ** Going up *)

Lemma dirname_of_child (q name : string) :
  dir_prefix q → has_sep name = false →
  dirname (q +:+ os_sep +:+ name) = (if decide (q = "") then os_sep else q)
  ∧ basename (q +:+ os_sep +:+ name) = name.
Proof.
  intros Hq Hns.
  assert (Hfind : rfind (q +:+ os_sep +:+ name) os_sep = Some (String.length q)).
  { apply rfind_last; [apply startswith_app|]. intros k.
    change (os_sep +:+ name) with (String "/" name). simpl.
    by apply no_sep_no_match. }
  assert (Hlen : S (String.length q) = String.length (q +:+ os_sep)).
  { rewrite length_append. simpl. lia. }
  split.
  - unfold dirname. rewrite Hfind, Hlen, <- app_assoc_str, str_take_app.
    destruct Hq as [->|(c & r & Hr & Hc)].
    + simpl. by destruct (decide (os_sep ≠ "" ∧ os_sep ≠ os_sep)) as [[_ ?]|_].
    + assert (Hq0 : q ≠ "") by (by intros ->).
      destruct (decide (q = "")); [done|].
      destruct (decide (q +:+ os_sep ≠ ""
                        ∧ q +:+ os_sep ≠ str_repeat (py_len (q +:+ os_sep)) os_sep))
        as [_|Hn].
      * rewrite rstrip_sep_snoc. by eapply rstrip_sep_id.
      * exfalso. apply Hn. split; [by destruct q|]. intros E.
        assert (Ha : all_sep (q +:+ os_sep) = true) by (rewrite E; apply all_sep_repeat).
        rewrite all_sep_app, <- all_sep_rev, Hr in Ha. simpl in Ha.
        rewrite bool_decide_eq_false_2 in Ha by done. done.
  - unfold basename. rewrite Hfind, Hlen, <- app_assoc_str. apply str_drop_app.
Qed.

(** X12. From the view of a directory [name] inside [q/], going up
    shows [q/] with the cursor on [name], whether or not the path of the
    view ends in separators; from the root nothing is shown. *)
Theorem up_shows_parent (reuse : bool) (view_id : nat) (v : View)
    (q name sfx : string) :
  dir_prefix q →
  name ≠ "" →
  has_sep name = false →
  all_sep sfx = true →
  (path v = q +:+ os_sep +:+ name +:+ sfx →
     up_run reuse view_id v
       = Some (Show (q +:+ os_sep) (if reuse then Some view_id else None) None
                 (Some name)))
  ∧ (path v = os_sep → up_run reuse view_id v = None).
Proof.
  intros Hq Hne Hns Hsfx. split.
  - intros Hp. unfold up_run. rewrite Hp.
    assert (Hstrip : rstrip_sep (q +:+ os_sep +:+ name +:+ sfx)
                     = q +:+ os_sep +:+ name).
    { rewrite <- !app_assoc_str, rstrip_sep_all_sep by done.
      destruct (rev_name_head (q +:+ os_sep) name Hne Hns) as (c & r & Hr & Hc).
      by rewrite (rstrip_sep_id _ c r Hr Hc). }
    rewrite Hstrip. destruct (dirname_of_child q name Hq Hns) as [-> ->].
    assert (Hparent : (if decide ((if decide (q = "") then os_sep else q) ≠ os_sep)
                       then (if decide (q = "") then os_sep else q) +:+ os_sep
                       else (if decide (q = "") then os_sep else q))
                      = q +:+ os_sep).
    { destruct (decide (q = "")) as [->|Hq0].
      - by destruct (decide (os_sep ≠ os_sep)).
      - destruct (decide (q ≠ os_sep)) as [|Hn]; [done|].
        exfalso. destruct Hq as [?|(c & r & Hr & Hc)]; [done|].
        assert (q = os_sep) as -> by (by destruct (decide (q = os_sep))).
        injection Hr as <- _. done. }
    rewrite Hparent.
    destruct (decide (q +:+ os_sep = q +:+ os_sep +:+ name +:+ sfx)) as [E|_]; [|done].
    exfalso. apply (f_equal String.length) in E.
    rewrite !length_append in E. destruct name; [done|]. simpl in E. lia.
  - intros Hp. unfold up_run. rewrite Hp. reflexivity.
Qed.

Lemma up_shows_parent_witness :
  up_run true 7 (mkView "/home/u/src/" [] [] None false [] [] [] [] [])
  = Some (Show "/home/u/" (Some 7) None (Some "src")).
Proof.
  apply (proj1 (up_shows_parent true 7
                  (mkView "/home/u/src/" [] [] None false [] [] [] [] [])
                  "/home/u" "src" "/"
                  ltac:(right; exists "u"%char, "/emoh/"; split; [reflexivity | discriminate])
                  ltac:(discriminate) ltac:(reflexivity) ltac:(reflexivity))).
  reflexivity.
Defined.

(** ** Opening the selection *)

(** X13. Opening the selection makes exactly one call per selected
    name, in order: a name that is a directory is shown (in this very
    view when it is the only one and views are reused), the parent link
    on its own runs [dired_up] when views are reused, and any other name
    is opened as a file.  No directory is ever opened as a file and no
    file is ever shown as a directory. *)
Theorem select_acts_once_per_name {W : Type} (H : Host W) (new_view reuse : bool)
    (view_id : nat) (v : View) (w : W) :
  Forall2
    (λ name call,
       match call with
       | Show fqn _ _ _ => fqn = join (path v) name ∧ os_isdir H w fqn = true
       | OpenFile fqn => fqn = join (path v) name ∧ os_isdir H w fqn = false
       | WindowCommand cmd =>
           cmd = "dired_up" ∧ name = "⠤" ∧ selected v = [name]
           ∧ reuse = true ∧ new_view = false
           ∧ os_isdir H w (join (path v) name) = false
       end)
    (selected v) (select_run H new_view reuse view_id v w).
Proof.
  assert (Heach : ∀ l,
    Forall2
      (λ name call,
         match call with
         | Show fqn _ _ _ => fqn = join (path v) name ∧ os_isdir H w fqn = true
         | OpenFile fqn => fqn = join (path v) name ∧ os_isdir H w fqn = false
         | WindowCommand cmd =>
             cmd = "dired_up" ∧ name = "⠤" ∧ selected v = [name]
             ∧ reuse = true ∧ new_view = false
             ∧ os_isdir H w (join (path v) name) = false
         end)
      l (select_each H new_view (path v) w <$> l)).
  { induction l as [|name l IH]; constructor; [|done].
    unfold select_each. by destruct (os_isdir H w (join (path v) name)) eqn:E. }
  unfold select_run.
  destruct (negb new_view && reuse) eqn:Hmode; [|apply Heach].
  apply andb_true_iff in Hmode as [Hnv ->]. apply negb_true_iff in Hnv as ->.
  destruct (selected v) as [|only [|second others]] eqn:Hsel; [apply Heach| |apply Heach].
  destruct (os_isdir H w (join (path v) only)) eqn:Hdir.
  - by repeat constructor.
  - destruct (decide (only = "⠤")) as [->|]; [by repeat constructor | apply Heach].
Qed.

(** ** The new-window command on a Mac *)

Lemma str_drop_all (n : nat) (s : string) :
  String.length s ≤ n → str_drop n s = "".
Proof.
  revert s. induction n as [|n IH]; intros [|c s] Hs; simpl in *; try done; try lia.
  apply IH. lia.
Qed.

(** X14. On a Mac, when ".app/" is last found in the path of the
    executable at the end of the bundle name, the new window is opened
    with the [subl] helper of that bundle, followed by "-n" and the full
    path of every target. *)
Theorem new_window_uses_bundle_helper {W : Type} (H : Host W) (v : View)
    (bundle tail : string) :
  platform H = "osx" →
  executable_path H = bundle +:+ ".app/" +:+ tail →
  Forall (λ k, startswith (str_drop k (".app/" +:+ tail)) ".app/" = false)
    (seq 1 (String.length (".app/" +:+ tail))) →
  spawned (open_in_new_window_run H v)
    = spawned v
      ++ [[bundle +:+ ".app/Contents/SharedSupport/bin/subl"; "-n"]
          ++ (join (path v) <$> targets v)].
Proof.
  intros Hosx Hexe Hlast.
  assert (Hfind : rfind (executable_path H) ".app/" = Some (String.length bundle)).
  { rewrite Hexe. apply rfind_last; [apply startswith_app|]. intros k.
    destruct (decide (S k ≤ String.length (".app/" +:+ tail))) as [Hk|Hk].
    - apply (proj1 (Forall_forall _ _) Hlast). apply elem_of_seq. lia.
    - rewrite str_drop_all by lia. done. }
  assert (Hcut : String.length bundle + 5 = String.length (bundle +:+ ".app/")).
  { rewrite length_append. reflexivity. }
  unfold open_in_new_window_run. rewrite Hfind. cbv beta iota. rewrite Hcut.
  destruct (decide (platform H = "osx")); [|done].
  rewrite Hexe, <- (app_assoc_str bundle ".app/" tail), str_take_app.
  unfold spawn, targets. simpl. by rewrite app_assoc_str.
Qed.

Lemma new_window_uses_bundle_helper_witness :
  spawned (open_in_new_window_run mac_host batch_view)
  = [["/Applications/Sublime Text.app/Contents/SharedSupport/bin/subl"; "-n";
      "/d/a.txt"; "/d/missing"; "/d/b.py"]].
Proof.
  apply (new_window_uses_bundle_helper mac_host batch_view
           "/Applications/Sublime Text" "Contents/MacOS/Sublime Text");
    [ reflexivity | reflexivity | ].
  apply (bool_decide_unpack _). vm_compute. exact I.
Defined.

(** ** Cancelling and committing *)

(** X16. Committing an edit that changed nothing is cancelling: with
    the edited names equal to the baseline, the commit leaves the files
    alone and ends as the cancel command does, with the same view
    (baseline gone, rename mode off, refresh on the first selected name
    without its trailing separator, or [IndexError] before the refresh
    when nothing is selected), only with the 'rename' regions erased. *)
Theorem commit_unchanged_is_cancel {W : Type} (H : RenameHost W)
    (remove_ui : string → string) (fuel : nat) (v : View)
    (m : machine W) (before : list string) :
  rename v = Some before →
  NoDup before →
  edited_names remove_ui v = before →
  rename_commit H remove_ui fuel v m
    = Some (mkResult (rename_cancel_run v).1
              (erase_rename_regions (rename_cancel_run v).2) m).
Proof.
  intros Hbase Hnd Hsame. unfold rename_commit.
  rewrite Hbase, Hsame, compute_diffs_same.
  destruct (decide (length before ≠ length before)); [done|].
  destruct (decide (size (list_to_set before : gset string) ≠ length before))
    as [Hsz|_].
  { exfalso. by apply Hsz, size_list_to_set_NoDup. }
  unfold finish_commit, rename_cancel_run, leave_rename_mode. simpl.
  destruct (selected v) as [|first others]; reflexivity.
Qed.

Lemma commit_unchanged_is_cancel_witness :
  rename_commit mem_rename_host sample_remove_ui 0
    (rename_view ["a"; "b"] ["≡ a"; "  ≡ b "]) sample_machine
  = Some (mkResult Returned
            (erase_rename_regions
               (rename_cancel_run (rename_view ["a"; "b"] ["≡ a"; "  ≡ b "])).2)
            sample_machine).
Proof.
  apply (commit_unchanged_is_cancel mem_rename_host sample_remove_ui 0
           (rename_view ["a"; "b"] ["≡ a"; "  ≡ b "]) sample_machine ["a"; "b"]);
    [ reflexivity | | reflexivity ].
  apply (bool_decide_unpack _). vm_compute. exact I.
Defined.

(** ** The extension typed for mark-by-extension *)

(** X17. A blank extension is dropped without re-running the command;
    any other input is passed on stripped and with a leading dot, added
    only when the input has none: typing "py" and typing ".py" run the
    same command. *)
Theorem mark_extension_dot (ext : string) (v : View) :
  (strip ext = "" → mark_extension_on_done ext v = v)
  ∧ (strip ext ≠ "" →
     ∃ e, mark_extension_on_done ext v
            = run_command "dired_mark_extension" (Some e) v
       ∧ startswith e "." = true
       ∧ endswith e (strip ext) = true
       ∧ (startswith (strip ext) "." = true → e = strip ext)
       ∧ (startswith (strip ext) "." = false → e = "." +:+ strip ext)).
Proof.
  unfold mark_extension_on_done. split.
  - intros ->. done.
  - intros Hne. destruct (decide (strip ext = "")); [done|].
    destruct (startswith (strip ext) ".") eqn:Hdot; simpl.
    + exists (strip ext). repeat split; try done.
      rewrite <- (app_empty_l (strip ext)) at 1. apply endswith_app.
    + exists ("." +:+ strip ext).
      split; [done|]. split; [apply startswith_app|].
      split; [apply endswith_app|]. by split.
Qed.

Example mark_extension_dot_ex :
  mark_extension_on_done (nbsp +:+ "py ") sample_view
    = run_command "dired_mark_extension" (Some ".py") sample_view
  ∧ mark_extension_on_done blank_name sample_view = sample_view.
Proof. split; reflexivity. Qed.

(** ** Rename commit: failures, plain renames, and renaming back *)

Section CommitFurther.
Context {W : Type} (H : RenameHost W) (remove_ui : string → string).

(** X15. A commit is not rolled back and not abandoned.  With a name
    selected (so that the closing refresh cannot raise), whatever
    exception ends the command, be it from [NamedTemporaryFile],
    [os.unlink], [os.rename] or [existing.remove], the view is exactly
    as before the commit, still in rename mode with its baseline and
    edited lines, with no message and no refresh, while the renames
    made until then stay on record and in the world. *)
Theorem commit_failure_keeps_rename_mode (fuel : nat) (v : View)
    (m : machine W) (r : result (machine W)) (e : exn) :
  rename_commit H remove_ui fuel v m = Some r →
  res_out r = Raised e →
  selected v ≠ [] →
  res_view r = v
  ∧ m_renames m `prefix_of` m_renames (res_world r)
  ∧ m_tmp m ≤ m_tmp (res_world r)
  ∧ ∃ before s,
      rename v = Some before
      ∧ rename_loop H (path v) fuel
          (mkLoop (compute_diffs before (edited_names remove_ui v))
             (list_to_set before) (m_world m) (m_tmp m) (m_renames m))
        = Some (Raised e, s)
      ∧ res_world r = mkMachine (world s) (tmp_next s) (renames s).
Proof.
  intros Hrun Hout Hsel. unfold rename_commit in Hrun.
  destruct (rename v) as [before|]; [|by injection Hrun as <-].
  destruct (decide _); [by injection Hrun as <-|].
  destruct (decide _); [by injection Hrun as <-|].
  assert (Hfin : ∀ m' : machine W, res_out (finish_commit v m') ≠ Raised e).
  { intros m' E. unfold finish_commit in E. simpl in E.
    by destruct (selected v). }
  destruct (compute_diffs before (edited_names remove_ui v)) as [|d ds] eqn:HD.
  { injection Hrun as <-. by apply Hfin in Hout. }
  destruct (rename_loop _ _ _ _) as [[[|e'] s']|] eqn:Hloop; [| |done].
  - injection Hrun as <-. by apply Hfin in Hout.
  - injection Hrun as <-. simpl in *. injection Hout as ->.
    destruct (rename_loop_log _ _ _ _ _ _ Hloop) as [Hp Hn].
    split; [done|]. split; [done|]. split; [done|].
    exists before, s'. by rewrite HD.
Qed.
End CommitFurther.

(** ** Rename commit: edits that need no temporary name *)

Section PlainRenames.
Context {W V : Type} (H : RenameHost W) (content : W → string → option V).
Context (remove_ui : string → string).


End PlainRenames.

(** ** Rename commit: renaming back *)


Section RenameBack.
Context {W V : Type} (H : RenameHost W) (content : W → string → option V).
Context (remove_ui : string → string).

End RenameBack.

(** ** The rename commit on the in-memory directory *)

Lemma fresh_string_prefix {A : Type} (s : string) (m : gmap string A) :
  ∃ sfx, fresh_string s m = s +:+ sfx.
Proof.
  unfold fresh_string. destruct (m !! s) as [a|] eqn:Hs.
  2: { exists "". by rewrite app_empty_r. }
  clear a Hs.
  generalize 0%N (wf_guard 32 (fresh_string_R_wf s m) 0%N).
  fix FIX 2. intros n [go]. simpl. unfold fresh_string_go at 1. simpl.
  destruct (Some_dec (m !! (s +:+ pretty n))) as [[??]|?].
  - apply FIX.
  - by eexists.
Qed.

Lemma mem_drawn (t : string) :
  drawn mem_rename_host "/d" t → ∃ sfx, t = "/d/tmp" +:+ sfx.
Proof.
  intros (w & w1 & E). simpl in E. injection E as <- _.
  apply (fresh_string_prefix "/d/tmp").
Qed.

Lemma join_d_plain (x : string) :
  startswith x "/" = false → join "/d" x = "/d/" +:+ x.
Proof. intros E. unfold join. change os_sep with "/". by rewrite E. Qed.

Lemma join_d_abs (sfx : string) : join "/d" ("/d/tmp" +:+ sfx) = "/d/tmp" +:+ sfx.
Proof. reflexivity. Qed.

Lemma mem_plain_spec (x : string) :
  mem_plain x = true → startswith x "/" = false ∧ startswith x "tmp" = false.
Proof.
  unfold mem_plain. intros E. apply andb_true_iff in E as [E1 E2].
  by apply negb_true_iff in E1, E2.
Qed.

Lemma mem_names_apart (N : list string) (x y : string) :
  Forall (λ n, mem_plain n = true) N →
  commit_name mem_rename_host "/d" N x →
  commit_name mem_rename_host "/d" N y →
  join "/d" x = join "/d" y → x = y.
Proof.
  intros HN Hx Hy E.
  assert (Hpl : ∀ n, n ∈ N →
            join "/d" n = "/d/" +:+ n ∧ startswith n "tmp" = false).
  { intros n Hn. destruct (mem_plain_spec n) as [H1 H2].
    - by apply (proj1 (Forall_forall _ _) HN).
    - split; [by apply join_d_plain | done]. }
  assert (Hmix : ∀ n sfx, n ∈ N → "/d/" +:+ n ≠ "/d/tmp" +:+ sfx).
  { intros n sfx Hn E'. destruct (Hpl n Hn) as [_ Hno].
    change ("/d/tmp" +:+ sfx) with ("/d/" +:+ ("tmp" +:+ sfx)) in E'.
    apply String.app_inj in E'. subst n.
    by rewrite startswith_app in Hno. }
  destruct Hx as [Hx|Hx], Hy as [Hy|Hy].
  - destruct (Hpl x Hx) as [E1 _], (Hpl y Hy) as [E2 _].
    rewrite E1, E2 in E. by apply String.app_inj in E.
  - destruct (Hpl x Hx) as [E1 _]. apply mem_drawn in Hy as [sfx ->].
    rewrite E1, join_d_abs in E. by apply Hmix in E.
  - destruct (Hpl y Hy) as [E2 _]. apply mem_drawn in Hx as [sfx ->].
    rewrite E2, join_d_abs in E. symmetry in E. by apply Hmix in E.
  - apply mem_drawn in Hx as [sx ->]. apply mem_drawn in Hy as [sy ->].
    by rewrite !join_d_abs in E.
Qed.

Lemma mem_moves (K : string → Prop) :
  (∀ x y, K x → K y → join "/d" x = join "/d" y → x = y) →
  moves_entries mem_rename_host mem_content "/d" K.
Proof.
  intros Hap. split; [done|].
  intros w x y f _ _ Hf Hn. unfold mem_content in *. simpl. rewrite Hf.
  eexists. split; [reflexivity|].
  assert (join "/d" x ≠ join "/d" y) by (intros E; by rewrite E, Hn in Hf).
  repeat split.
  - by rewrite lookup_insert_eq.
  - rewrite lookup_insert_ne by done. by rewrite lookup_delete_eq.
  - intros z _ Hzx Hzy.
    rewrite lookup_insert_ne by done. by rewrite lookup_delete_ne.
Qed.

Lemma mem_draws (N : list string) :
  Forall (λ n, mem_plain n = true) N →
  draws_fresh mem_rename_host mem_content "/d" N.
Proof.
  intros HN. split.
  - intros t Ht Hin. apply mem_drawn in Ht as [sfx ->].
    destruct (mem_plain_spec ("/d/tmp" +:+ sfx)) as [H1 _]; [|done].
    by apply (proj1 (Forall_forall _ _) HN).
  - intros w. destruct (fresh_string_prefix "/d/tmp" w) as [sfx Hsfx].
    pose proof (fresh_string_fresh w "/d/tmp") as Hfresh.
    eexists _, _, _. split; [reflexivity|].
    change (join "/d" "tmp") with "/d/tmp". cbv zeta. simpl.
    rewrite lookup_insert_eq.
    destruct (decide (is_Some (Some 0))) as [_|Hno]; [|by destruct Hno; eexists].
    split; [reflexivity|]. unfold mem_content.
    rewrite Hsfx, join_d_abs, <- Hsfx. split; [done|].
    intros x _. destruct (decide (join "/d" x = fresh_string "/d/tmp" w)) as [->|Hne].
    + by rewrite lookup_delete_eq.
    + by rewrite lookup_delete_ne, lookup_insert_ne.
Qed.

Lemma mem_hosts_commit (N : list string) :
  Forall (λ n, mem_plain n = true) N →
  moves_entries mem_rename_host mem_content "/d"
    (commit_name mem_rename_host "/d" N)
  ∧ draws_fresh mem_rename_host mem_content "/d" N.
Proof.
  intros HN. split; [|by apply mem_draws].
  apply mem_moves. intros x y. by apply mem_names_apart.
Qed.

Lemma rename_commit_resolves_cycles_witness :
  (∃ r, rename_commit mem_rename_host sample_remove_ui 4 swap_view sample_machine
          = Some r
     ∧ res_out r = Returned
     ∧ errors (res_view r) = []
     ∧ m_world (res_world r) !! "/d/a" = Some 2
     ∧ m_world (res_world r) !! "/d/b" = Some 1
     ∧ m_world (res_world r) = {[ "/d/a" := 2; "/d/b" := 1 ]}
     ∧ m_tmp (res_world r) = 1)
  ∧ (∃ r, rename_commit mem_rename_host sample_remove_ui 7 rotate_view rotate_machine
            = Some r
       ∧ errors (res_view r) = []
       ∧ m_world (res_world r) !! "/d/b" = Some 1
       ∧ m_world (res_world r) !! "/d/c" = Some 2
       ∧ m_world (res_world r) !! "/d/a" = Some 3
       ∧ m_tmp (res_world r) ≤ 3).
Proof.
  split.
  - destruct (mem_hosts_commit ["a"; "b"]) as [Hmv Hdr];
      [by repeat constructor|].
    destruct (proj1 (rename_commit_resolves_cycles mem_rename_host mem_content
                       sample_remove_ui)
                4 swap_view sample_machine "a" "b" 1 2)
      as (r & t & Hr & _ & Ha & Hb & _ & _ & Htmp & Herr & _ & _ & Hout);
      [ reflexivity | reflexivity | discriminate | exact Hmv | exact Hdr
      | reflexivity | reflexivity | lia | ].
    exists r. repeat split; [exact Hr | exact Hout | exact Herr
                            | exact Ha | exact Hb | | exact Htmp].
    assert (E : rename_commit mem_rename_host sample_remove_ui 4 swap_view
                  sample_machine
                = Some (mkResult Returned
                          (run_command "dired_refresh" (Some "a")
                             (leave_rename_mode swap_view))
                          (mkMachine {[ "/d/a" := 2; "/d/b" := 1 ]} 1
                             [("a", "/d/tmp"); ("b", "a"); ("/d/tmp", "b")])))
      by (vm_compute; reflexivity).
    rewrite E in Hr. by injection Hr as <-.
  - destruct (mem_hosts_commit (["a"; "b"; "c"] ++ ["b"; "c"; "a"])) as [Hmv Hdr];
      [by repeat constructor|].
    destruct (proj2 (rename_commit_resolves_cycles mem_rename_host mem_content
                       sample_remove_ui)
                7 rotate_view rotate_machine ["a"; "b"; "c"])
      as (r & Hr & Herr & _ & _ & _ & Hfiles & _ & Htmp & _);
      [ reflexivity | reflexivity
      | apply (bool_decide_unpack _); vm_compute; exact I
      | apply (bool_decide_unpack _); vm_compute; exact I
      | exact Hmv | exact Hdr
      | apply (bool_decide_unpack _); vm_compute; exact I
      | apply (bool_decide_unpack _); vm_compute; exact I
      | vm_compute; lia | ].
    exists r. repeat split; [exact Hr | exact Herr | | | | ].
    + apply (Hfiles 0 "a" "b"); reflexivity.
    + apply (Hfiles 1 "b" "c"); reflexivity.
    + apply (Hfiles 2 "c" "a"); reflexivity.
    + apply (proj2 Htmp).
Defined.

Lemma commit_failure_keeps_rename_mode_witness :
  ∃ r, rename_commit mem_rename_host sample_remove_ui 8
         (rename_view ["a"; "b"] ["≡ x"; "≡ b"]) orphan_machine = Some r
    ∧ res_out r = Raised FileNotFoundError
    ∧ res_view r = rename_view ["a"; "b"] ["≡ x"; "≡ b"].
Proof.
  eexists. split; [reflexivity|]. split; [reflexivity|].
  eapply (commit_failure_keeps_rename_mode mem_rename_host sample_remove_ui 8
            (rename_view ["a"; "b"] ["≡ x"; "≡ b"]) orphan_machine _
            FileNotFoundError);
    [ reflexivity | reflexivity | discriminate ].
Defined.


